(** * Two-pass LLM module extractor: chunker, response parser, orchestrator

    A shallow embedding of [core/ai_extractor.py] (class [LLMModuleExtractor])
    and the properties its specification states about it.

    Python values are modelled as follows.
    - [str] is [string], with the characters below U+0100; [len], slicing,
      [split], [join] and [strip] are the functions of [Module PyStr].
    - [int] is [Z]; a length or an index, which is never negative, is
      [nat], and a token count, which is never negative either, is [N].
    - a decoded JSON document is a value of [json] ([Module PyJson]).
    - the three libraries the class calls ([tiktoken], [json], [openai]) are
      not part of the repository: they are the variables of
      [Section Extractor], and every property is stated for all of their
      possible behaviours, or names the facts about them it relies on.
    - a method that logs, calls the model or may raise is a computation in
      the monad [M]: it threads a [World] (the calls of the model made so
      far and the log) and ends in a value or in a raised exception.
    - of the caller, [main.py], and of the preprocessor, only the steps
      that make the text given to [extract] are modelled: the filter that
      ends [extract_structured_text] and the join of the blocks. *)

From Stdlib Require Import String Ascii List ZArith Lia Bool Arith PeanoNat.
From Stdlib Require Import DecimalString SpecFloat NArith.
Import ListNotations.

Local Open Scope string_scope.
Local Open Scope list_scope.

(** ** Python strings *)

Module PyStr.

(** The line feed, written ['\n'] in the source. *)
Definition LF : ascii := Ascii.ascii_of_nat 10.

(** The double quote, for string constants that contain it. *)
Definition DQ : string := String (Ascii.ascii_of_nat 34) "".

(** The string ['\n']. *)
Definition NL : string := String LF "".

(** The paragraph separator ['\n\n']. *)
Definition NLNL : string := String LF (String LF "").

Definition is_LF (c : ascii) : bool := Ascii.eqb c LF.

(** [push_char c bs] puts [c] in front of the first string of [bs]. *)
Definition push_char (c : ascii) (bs : list string) : list string :=
  match bs with
  | [] => [String c ""]
  | b :: bs' => String c b :: bs'
  end.

(** [text.split('\n\n')]: the pieces between the occurrences of the
    separator, found from left to right without overlap. The result is
    never empty: [''.split('\n\n') == ['']]. *)
Fixpoint split_nlnl (s : string) : list string :=
  match s with
  | "" => [""]
  | String c rest =>
      match rest with
      | String c' rest' =>
          if is_LF c && is_LF c' then "" :: split_nlnl rest'
          else push_char c (split_nlnl rest)
      | "" => [String c ""]
      end
  end.

(** ["\n\n".join(blocks)]. *)
Definition join_nlnl (blocks : list string) : string :=
  String.concat NLNL blocks.

(** [s[i:i+n]] for [0 <= i] and [0 <= n]: the slice is clipped at the end
    of [s]. *)
Definition slice (s : string) (i n : nat) : string := substring i n s.

(** [str.isspace] on one character, for the characters below U+0100. *)
Definition is_space (c : ascii) : bool :=
  let n := Ascii.nat_of_ascii c in
  ((9 <=? n)%nat && (n <=? 13)%nat) || ((28 <=? n)%nat && (n <=? 32)%nat)
  || (n =? 133)%nat || (n =? 160)%nat.

Fixpoint lstrip (s : string) : string :=
  match s with
  | "" => ""
  | String c rest => if is_space c then lstrip rest else s
  end.

(** [rstrip s] drops the trailing white space. *)
Fixpoint rstrip (s : string) : string :=
  match s with
  | "" => ""
  | String c rest =>
      match rstrip rest with
      | "" => if is_space c then "" else String c ""
      | r => String c r
      end
  end.

(** [s.strip()]. *)
Definition strip (s : string) : string := rstrip (lstrip s).

(** Truth value of a string: [not s] holds for the empty string only. *)
Definition is_empty (s : string) : bool :=
  match s with "" => true | _ => false end.

(** [str(n)] for a natural number. *)
Definition str_of_nat (n : nat) : string :=
  NilEmpty.string_of_uint (Nat.to_uint n).

(** [str(n)] for a token count. *)
Definition str_of_N (n : N) : string :=
  NilEmpty.string_of_uint (N.to_uint n).

(** [range(0, stop, step)] for [0 <= stop] and [0 < step], as the list of
    its elements. *)
Definition range0 (stop step : nat) : list nat :=
  map (fun k => k * step) (seq 0 ((stop + step - 1) / step)).

End PyStr.

Import PyStr.

(** ** Outcomes and the monad of the extractor *)

(** The exceptions that occur in the modelled code. *)
Inductive exn : Type :=
| JSONDecodeError
| ValueError
| RecursionError.

Inductive outcome (A : Type) : Type :=
| Ret (a : A)
| Raise (e : exn).
Arguments Ret {A} a.
Arguments Raise {A} e.

Definition obind {A B : Type} (o : outcome A) (k : A -> outcome B)
  : outcome B :=
  match o with
  | Ret a => k a
  | Raise e => Raise e
  end.

(** ** The chunker, without its log line *)

Section Chunker.

(** [count text] is [self._get_token_count(text)], that is
    [len(self.encoding.encode(text, disallowed_special=()))]. *)
Variable count : string -> N.

(** The three local variables of the loop of [_chunk_text_by_tokens]. *)
Record chunker_state : Type := mk_chunker_state {
  chunks : list string;
  current_chunk_blocks : list string;
  current_chunk_tokens : N
}.

(** Truth value of a list: [if current_chunk_blocks:]. *)
Definition nonempty {A : Type} (l : list A) : bool :=
  match l with [] => false | _ => true end.

(** The force-split of an oversized block:
    [for i in range(0, len(block), char_limit): block[i:i + char_limit]].
    [range] raises [ValueError] on a zero step and is empty on a negative
    one. *)
Definition force_split (block : string) (char_limit : Z)
  : outcome (list string) :=
  if (char_limit =? 0)%Z then Raise ValueError
  else if (char_limit <? 0)%Z then Ret []
  else
    let step := Z.to_nat char_limit in
    Ret (map (fun i => slice block i step)
             (range0 (String.length block) step)).

(** One iteration of [for block in text_blocks:]. *)
Definition chunk_step (max_tokens : Z) (st : chunker_state) (block : string)
  : outcome chunker_state :=
  let block_tokens := count block in
  if (max_tokens <? Z.of_N block_tokens)%Z then
    let st1 :=
      if nonempty (current_chunk_blocks st)
      then mk_chunker_state
             (chunks st ++ [join_nlnl (current_chunk_blocks st)]) [] 0
      else st in
    let char_limit := (max_tokens * 3)%Z in
    obind (force_split block char_limit) (fun slices =>
    Ret (mk_chunker_state (chunks st1 ++ slices)
           (current_chunk_blocks st1) (current_chunk_tokens st1)))
  else
    let st1 :=
      if (max_tokens <? Z.of_N (current_chunk_tokens st + block_tokens))%Z
         && nonempty (current_chunk_blocks st)
      then mk_chunker_state
             (chunks st ++ [join_nlnl (current_chunk_blocks st)]) [] 0
      else st in
    let blocks' := current_chunk_blocks st1 ++ [block] in
    Ret (mk_chunker_state (chunks st1) blocks'
           (current_chunk_tokens st1 + count (join_nlnl blocks'))%N).

Fixpoint chunk_loop (max_tokens : Z) (text_blocks : list string)
  (st : chunker_state) : outcome chunker_state :=
  match text_blocks with
  | [] => Ret st
  | block :: rest =>
      obind (chunk_step max_tokens st block) (chunk_loop max_tokens rest)
  end.

(** The chunks the loop has emitted, with the trailing ones appended:
    [if current_chunk_blocks: chunks.append(...)]. *)
Definition finish (st : chunker_state) : list string :=
  if nonempty (current_chunk_blocks st)
  then chunks st ++ [join_nlnl (current_chunk_blocks st)]
  else chunks st.

(** The value [_chunk_text_by_tokens(text, max_tokens)] returns. *)
Definition chunk_text (text : string) (max_tokens : Z)
  : outcome (list string) :=
  obind (chunk_loop max_tokens (split_nlnl text) (mk_chunker_state [] [] 0))
        (fun st => Ret (finish st)).

End Chunker.

Set Warnings "-register-all".

(** ** JSON documents *)

Module PyJson.

(** What [json.loads] returns: [None], [bool], [int], [float], [str],
    [list], or a [dict] with string keys. A [dict] keeps its items in
    insertion order, which is the order [data.items()] yields them in. *)
Inductive json : Type :=
| JNull
| JBool (b : bool)
| JInt (z : Z)
| JFloat (f : spec_float)
| JStr (s : string)
| JList (l : list json)
| JDict (items : list (string * json)).

(** [key in data] for a [dict] given by its items. *)
Definition has_key (key : string) (items : list (string * json)) : bool :=
  existsb (fun kv => String.eqb (fst kv) key) items.

(** The loop [for key, value in data.items(): if isinstance(value, list):
    return value]: the first value that is a list, if there is one. *)
Fixpoint first_list_value (items : list (string * json))
  : option (list json) :=
  match items with
  | [] => None
  | (_, JList l) :: _ => Some l
  | _ :: rest => first_list_value rest
  end.

End PyJson.

Import PyJson.

(** ** The world of one extractor *)

(** One call of [self.client.chat.completions.create]: the model, the
    system prompt and the user content. The response format
    ([json_object]) and the temperature ([0.0]) are the same in every
    call. *)
Record request : Type := mk_request {
  req_model : string;
  req_system : string;
  req_user : string
}.

(** How a call of the client ends: with a completion whose first choice
    has the given content, with an [openai.APIStatusError], or with any
    other exception (given by its text). *)
Inductive completion : Type :=
| Completion (content : string)
| APIStatusError (status_code : nat) (response_text : string)
| OtherException (text : string).

Inductive level : Type := INFO | WARNING | ERROR.

(** The calls of the client made so far and the records logged so far, both
    oldest first. *)
Record World : Type := mk_World {
  llm_calls : list request;
  log : list (level * string)
}.

(** A computation that reads and extends the world and returns a value or
    raises. *)
Definition M (A : Type) : Type := World -> outcome A * World.

Definition ret {A : Type} (a : A) : M A := fun w => (Ret a, w).

Definition raise {A : Type} (e : exn) : M A := fun w => (Raise e, w).

Definition bind {A B : Type} (m : M A) (k : A -> M B) : M B :=
  fun w =>
    match m w with
    | (Ret a, w') => k a w'
    | (Raise e, w') => (Raise e, w')
    end.

(** [isinstance(raised, caught)] for exception classes:
    [json.JSONDecodeError] is a subclass of [ValueError], and
    [RecursionError] is related to neither. *)
Definition exn_isinstance (raised caught : exn) : bool :=
  match raised, caught with
  | JSONDecodeError, JSONDecodeError => true
  | JSONDecodeError, ValueError => true
  | ValueError, ValueError => true
  | RecursionError, RecursionError => true
  | _, _ => false
  end.

(** [try: body except caught: handler]. *)
Definition try_except {A : Type} (body : M A) (caught : exn) (handler : M A)
  : M A :=
  fun w =>
    match body w with
    | (Ret a, w') => (Ret a, w')
    | (Raise raised, w') =>
        if exn_isinstance raised caught then handler w'
        else (Raise raised, w')
    end.

Definition lift {A : Type} (o : outcome A) : M A := fun w => (o, w).

Declare Scope py_scope.
Delimit Scope py_scope with py.
Notation "x <- m ;; k" := (bind m (fun x => k))
  (at level 61, m at next level, right associativity) : py_scope.
Notation "m ;;; k" := (bind m (fun _ => k))
  (at level 61, right associativity) : py_scope.

(** Modelled from the spec: [utils.logger] is not among the sources. The
    spec only says that a warning, an error or an information line is
    logged and that logging has no other effect, so a call of
    [logger.info], [logger.warning] or [logger.error] appends one record to
    the log. *)
Definition logger (lv : level) (msg : string) : M unit :=
  fun w => (Ret tt, mk_World (llm_calls w) (log w ++ [(lv, msg)])).

(** ** The extractor *)

(** [self.MAX_INPUT_TOKENS], set in [__init__] and never changed. *)
Definition MAX_INPUT_TOKENS : Z := 120000.

Definition _get_extraction_prompt : string :=
  "" ++ NL ++
  "        You are an AI assistant analyzing a piece of website documentation. Your task is to identify and extract any product features (modules) and their specific functionalities (submodules) from the provided text." ++ NL ++
  "        Structure your output as a valid JSON. The JSON should be a list of objects." ++ NL ++
  "        Each object must have " ++ DQ ++ "module" ++ DQ ++ " (string), " ++ DQ ++ "Description" ++ DQ ++ " (string), and " ++ DQ ++ "Submodules" ++ DQ ++ " (an object)." ++ NL ++
  "        Extract information ONLY from the provided text. If you find no modules, return an empty list []." ++ NL ++
  "        ".

Definition _get_synthesis_prompt : string :=
  "" ++ NL ++
  "        You are a data synthesis AI. You will be given a JSON list of " ++ DQ ++ "modules" ++ DQ ++ " extracted from a website's documentation. This list is messy, containing many duplicates, fragments, and overlapping information because it was generated from small chunks of the full text." ++ NL ++
  "        Your task is to process this entire JSON list and produce a single, clean, de-duplicated, and logically structured final JSON list of modules." ++ NL ++
  "        - Merge duplicate modules (e.g., " ++ DQ ++ "Account Settings" ++ DQ ++ " and " ++ DQ ++ "Settings, Account" ++ DQ ++ ")." ++ NL ++
  "        - Combine descriptions for the same module to be more comprehensive." ++ NL ++
  "        - Merge submodules for the same module and de-duplicate them." ++ NL ++
  "        - Remove any irrelevant or clearly non-module entries." ++ NL ++
  "        - Ensure the final output is a valid JSON list of objects, with " ++ DQ ++ "module" ++ DQ ++ ", " ++ DQ ++ "Description" ++ DQ ++ ", and " ++ DQ ++ "Submodules" ++ DQ ++ " keys." ++ NL ++
  "        ".

Section Extractor.

Local Open Scope py_scope.

(** [tiktoken]: [count text] is [self._get_token_count(text)], the length of
    [self.encoding.encode(text, disallowed_special=())]. *)
Variable count : string -> N.

(** [json.loads(text)] on a [str]: the decoded document, or the exception
    the call raises. That is [json.JSONDecodeError] on a text that is not a
    JSON document; on some documents the interpreter raises inside the
    call, a [ValueError] for an integer of more digits than the limit of
    integer conversion (4300 by default) and a [RecursionError] for a
    nesting deeper than its stack allows. *)
Variable json_loads : string -> outcome json.

(** [json.dumps(value, indent=2)]. *)
Variable json_dumps : json -> string.

(** [openai]: [client sent req] is how the call [req] ends when the calls
    [sent] were made before it. *)
Variable client : list request -> request -> completion.

(** [self.model_name]. *)
Variable model_name : string.

Definition _get_token_count (text : string) : N := count text.

Definition loads (text : string) : M json := lift (json_loads text).

Definition _call_llm (content system_prompt : string) : M string :=
  fun w =>
    let req := mk_request model_name system_prompt content in
    let w' := mk_World (llm_calls w ++ [req]) (log w) in
    match client (llm_calls w) req with
    | Completion text => ret text w'
    | APIStatusError status_code response_text =>
        (logger ERROR ("OpenAI API status error: " ++ str_of_nat status_code
                       ++ " - " ++ response_text) ;;;
         ret "") w'
    | OtherException e =>
        (logger ERROR ("An unexpected error occurred during LLM call: " ++ e) ;;;
         ret "") w'
    end.

(** The last two statements of the [try] block of [_parse_llm_output]. *)
Definition no_module_list (response_text : string) : M (list json) :=
  logger WARNING ("Could not parse a valid module list from LLM response: "
                  ++ response_text) ;;;
  ret [].

Definition _parse_llm_output (response_text : string) : M (list json) :=
  if is_empty response_text then ret []
  else
    try_except
      (data <- loads response_text ;;
       match data with
       | JList l => ret l
       | JDict items =>
           match first_list_value items with
           | Some value => ret value
           | None =>
               if has_key "module" items && has_key "Description" items
               then
                 logger WARNING
                   "LLM returned a single module object, wrapping it in a list." ;;;
                 ret [data]
               else no_module_list response_text
           end
       | _ => no_module_list response_text
       end)
      JSONDecodeError
      (logger ERROR ("Failed to decode JSON from LLM response: "
                     ++ response_text) ;;;
       ret []).

Definition _chunk_text_by_tokens (text : string) (max_tokens : Z)
  : M (list string) :=
  chunks <- lift (chunk_text count text max_tokens) ;;
  logger INFO ("Content was split into " ++ str_of_nat (length chunks)
               ++ " chunk(s).") ;;;
  ret chunks.

(** The loop [for i, chunk in enumerate(chunks):] of
    [_extract_raw_modules_from_chunks]; [n] is [len(chunks)] and
    [all_raw_modules] the list built so far. *)
Fixpoint raw_loop (n : nat) (extraction_prompt : string) (i : nat)
  (chunks : list string) (all_raw_modules : list json) : M (list json) :=
  match chunks with
  | [] => ret all_raw_modules
  | chunk :: rest =>
      logger INFO ("Processing chunk " ++ str_of_nat (i + 1) ++ "/"
                   ++ str_of_nat n ++ " in Pass 1.") ;;;
      response_text <- _call_llm chunk extraction_prompt ;;
      parsed_chunk_modules <- _parse_llm_output response_text ;;
      raw_loop n extraction_prompt (S i) rest
        (if nonempty parsed_chunk_modules
         then all_raw_modules ++ parsed_chunk_modules
         else all_raw_modules)
  end.

(** The list [all_raw_modules] at the end of
    [_extract_raw_modules_from_chunks]. *)
Definition all_raw_modules_of (text : string) : M (list json) :=
  chunks <- _chunk_text_by_tokens text MAX_INPUT_TOKENS ;;
  raw_loop (length chunks) _get_extraction_prompt 0 chunks [].

Definition _extract_raw_modules_from_chunks (text : string) : M string :=
  all_raw_modules <- all_raw_modules_of text ;;
  ret (json_dumps (JList all_raw_modules)).

Definition _synthesize_and_clean_modules (raw_modules_json : string)
  : M json :=
  let num_tokens := _get_token_count raw_modules_json in
  if (MAX_INPUT_TOKENS <? Z.of_N num_tokens)%Z then
    logger WARNING
      ("Cannot perform synthesis pass: raw module data is too large ("
       ++ str_of_N num_tokens ++ " tokens). Returning raw data.") ;;;
    loads raw_modules_json
  else
    final_response_text <- _call_llm raw_modules_json _get_synthesis_prompt ;;
    final_modules <- _parse_llm_output final_response_text ;;
    ret (JList final_modules).

Definition extract (consolidated_text : string) : M json :=
  if is_empty (strip consolidated_text) then
    logger WARNING "Extractor received empty text. Nothing to process." ;;;
    ret (JList [])
  else
    logger INFO "Starting Pass 1: Raw module extraction." ;;;
    raw_modules_json_string <-
      _extract_raw_modules_from_chunks consolidated_text ;;
    if is_empty raw_modules_json_string
       || String.eqb raw_modules_json_string "[]"
    then
      logger WARNING "Pass 1 did not yield any modules." ;;;
      ret (JList [])
    else
      logger INFO "Starting Pass 2: Synthesizing and cleaning modules." ;;;
      final_modules <- _synthesize_and_clean_modules raw_modules_json_string ;;
      ret final_modules.

End Extractor.

(** ** A JSON codec to run the model on *)

(** [json.loads] and [json.dumps(..., indent=2)] are library functions and
    stay abstract in the model. To run the model on concrete responses the
    examples use the decoder and the encoder below, written after the
    grammar CPython's [json] accepts and the layout it prints, for strings
    whose characters are below U+0100. Three things differ from CPython:
    an escape [\uXXXX] above U+00FF is rejected, since the character is not
    in the alphabet of [string]; a finite float is printed with all its
    decimal digits instead of the shortest ones that read back; and the
    decoder has no limit on the nesting of a document, where the
    interpreter raises [RecursionError]. *)

Module RefJson.

Local Open Scope string_scope.
Local Open Scope N_scope.

Definition BS : string := String (Ascii.ascii_of_nat 92) "".

(** The white space of the JSON grammar: space, tab, line feed, carriage
    return. *)
Definition is_ws (c : ascii) : bool :=
  let n := N_of_ascii c in
  (n =? 32) || (n =? 9) || (n =? 10) || (n =? 13).

Fixpoint skip_ws (s : string) : string :=
  match s with
  | "" => ""
  | String c r => if is_ws c then skip_ws r else s
  end.

Definition digit (c : ascii) : option Z :=
  let n := N_of_ascii c in
  if (48 <=? n) && (n <=? 57) then Some (Z.of_N (n - 48)) else None.

Definition hex_digit (c : ascii) : option N :=
  let n := N_of_ascii c in
  if (48 <=? n) && (n <=? 57) then Some (n - 48)
  else if (97 <=? n) && (n <=? 102) then Some (n - 87)
  else if (65 <=? n) && (n <=? 70) then Some (n - 55)
  else None.

(** The character a one-letter escape stands for. *)
Definition escape (c : ascii) : option ascii :=
  let n := N_of_ascii c in
  if (n =? 34) || (n =? 92) || (n =? 47) then Some c
  else if n =? 98 then Some (ascii_of_N 8)
  else if n =? 102 then Some (ascii_of_N 12)
  else if n =? 110 then Some (ascii_of_N 10)
  else if n =? 114 then Some (ascii_of_N 13)
  else if n =? 116 then Some (ascii_of_N 9)
  else None.

Definition push (c : ascii) (p : string * string) : string * string :=
  (String c (fst p), snd p).

(** The rest of a string literal after its opening quote, and the text
    after its closing quote. *)
Fixpoint scanstring (s : string) : option (string * string) :=
  match s with
  | "" => None
  | String c r =>
      let n := N_of_ascii c in
      if n =? 34 then Some ("", r)
      else if n =? 92 then
        match r with
        | "" => None
        | String e r1 =>
            match escape e with
            | Some ch => option_map (push ch) (scanstring r1)
            | None =>
                if N_of_ascii e =? 117 then
                  match r1 with
                  | String h1 (String h2 (String h3 (String h4 r2))) =>
                      match hex_digit h1, hex_digit h2,
                            hex_digit h3, hex_digit h4 with
                      | Some 0, Some 0, Some d3, Some d4 =>
                          option_map (push (ascii_of_N (16 * d3 + d4)))
                                     (scanstring r2)
                      | _, _, _, _ => None
                      end
                  | _ => None
                  end
                else None
            end
        end
      else if n <? 32 then None
      else option_map (push c) (scanstring r)
  end.

(** The longest run of digits at the start of [s]: its value after the
    digits [acc], how many there are, and the rest. *)
Fixpoint digits (acc : Z) (s : string) : Z * nat * string :=
  match s with
  | "" => (acc, O, "")
  | String c r =>
      match digit c with
      | Some d =>
          let '(v, k, r') := digits (acc * 10 + d)%Z r in (v, S k, r')
      | None => (acc, O, s)
      end
  end.

(** The float nearest to [m * 10 ^ e10], ties to even, with sign [neg]. *)
Definition float_of_decimal (neg : bool) (m : Z) (ndigits : nat) (e10 : Z)
  : spec_float :=
  if (m =? 0)%Z then S754_zero neg
  else if (310 <? e10)%Z then S754_infinity neg
  else if (e10 + Z.of_nat ndigits <? -330)%Z then S754_zero neg
  else
    let sign z := if neg then Z.opp z else z in
    if (0 <=? e10)%Z then
      binary_normalize 53 1024 (sign (m * 10 ^ e10)%Z) 0 neg
    else
      let d := (10 ^ (- e10))%Z in
      let k := (Z.log2 d + 64)%Z in
      let q := (m * 2 ^ k / d)%Z in
      let sticky := if (m * 2 ^ k mod d =? 0)%Z then 0%Z else 1%Z in
      binary_normalize 53 1024 (sign (2 * q + sticky)%Z) (- (k + 1)) neg.

(** The fraction [.digits], if the text starts with one. *)
Definition scan_frac (s : string) : option (Z * nat * string) :=
  match s with
  | String c r =>
      if N_of_ascii c =? 46 then
        match digits 0 r with
        | (_, O, _) => None
        | f => Some f
        end
      else None
  | "" => None
  end.

(** The exponent [e], [e+] or [e-] followed by digits, if the text starts
    with one. *)
Definition scan_exp (s : string) : option (Z * string) :=
  match s with
  | String c r =>
      if (N_of_ascii c =? 101) || (N_of_ascii c =? 69) then
        let '(neg, r1) :=
          match r with
          | String sg r' =>
              if N_of_ascii sg =? 45 then (true, r')
              else if N_of_ascii sg =? 43 then (false, r')
              else (false, r)
          | "" => (false, r)
          end in
        match digits 0 r1 with
        | (_, O, _) => None
        | (v, _, r2) => Some (if neg then (- v)%Z else v, r2)
        end
      else None
  | "" => None
  end.

(** The limit of the interpreter on the digits of an integer it converts
    from text ([sys.get_int_max_str_digits()], 4300 by default). *)
Definition int_max_str_digits : nat := 4300.

(** A text that is not a JSON document. *)
Definition malformed {A : Type} : outcome A := Raise JSONDecodeError.

(** A number at the start of [s], after its sign. A number with neither a
    fraction nor an exponent is converted by [int], which raises
    [ValueError] when it has more digits than the limit. *)
Definition scan_number (neg : bool) (s : string) : outcome (json * string) :=
  let int_part :=
    match s with
    | String c r =>
        match digit c with
        | Some 0%Z => Some (0%Z, 1%nat, r)
        | Some _ => Some (digits 0 s)
        | None => None
        end
    | "" => None
    end in
  match int_part with
  | None => malformed
  | Some (i, ki, r) =>
      let '(m, kf, r1, has_frac) :=
        match scan_frac r with
        | Some (f, k, r') => ((i * 10 ^ Z.of_nat k + f)%Z, k, r', true)
        | None => (i, O, r, false)
        end in
      let '(e, r2, has_exp) :=
        match scan_exp r1 with
        | Some (e, r') => (e, r', true)
        | None => (0%Z, r1, false)
        end in
      if has_frac || has_exp
      then Ret (JFloat (float_of_decimal neg m (ki + kf)
                          (e - Z.of_nat kf)), r2)
      else if (int_max_str_digits <? ki)%nat then Raise ValueError
      else Ret (JInt (if neg then (- i)%Z else i), r2)
  end.

(** [s] without the prefix [p], when it starts with it. *)
Fixpoint strip_prefix (p s : string) : option string :=
  match p, s with
  | "", _ => Some s
  | String a p', String b s' =>
      if Ascii.eqb a b then strip_prefix p' s' else None
  | _, "" => None
  end.

(** [dict(pairs)]: a later value for a key replaces the earlier one, in the
    place of the earlier one. *)
Fixpoint dict_set (k : string) (v : json) (items : list (string * json))
  : list (string * json) :=
  match items with
  | [] => [(k, v)]
  | (k', v') :: rest =>
      if String.eqb k' k then (k', v) :: rest
      else (k', v') :: dict_set k v rest
  end.

Definition first_is (n : N) (s : string) : option string :=
  match s with
  | String c r => if N_of_ascii c =? n then Some r else None
  | "" => None
  end.

(** The value at the start of [s] and the text after it; [elements] and
    [members] read the rest of an array after one of its values and the
    rest of an object after one of its items. *)
Fixpoint value (fuel : nat) (s : string) : outcome (json * string) :=
  match fuel with
  | O => malformed
  | S fuel' =>
      match s with
      | "" => malformed
      | String c r =>
          let n := N_of_ascii c in
          if n =? 34 then
            match scanstring r with
            | Some (str, r') => Ret (JStr str, r')
            | None => malformed
            end
          else if n =? 123 then
            let r1 := skip_ws r in
            match first_is 125 r1 with
            | Some r' => Ret (JDict [], r')
            | None =>
                match members fuel' [] r1 with
                | Ret (items, r') => Ret (JDict items, r')
                | Raise e => Raise e
                end
            end
          else if n =? 91 then
            let r1 := skip_ws r in
            match first_is 93 r1 with
            | Some r' => Ret (JList [], r')
            | None =>
                match elements fuel' [] r1 with
                | Ret (l, r') => Ret (JList l, r')
                | Raise e => Raise e
                end
            end
          else
            match strip_prefix "null" s, strip_prefix "true" s,
                  strip_prefix "false" s, strip_prefix "NaN" s,
                  strip_prefix "Infinity" s, strip_prefix "-Infinity" s with
            | Some r', _, _, _, _, _ => Ret (JNull, r')
            | _, Some r', _, _, _, _ => Ret (JBool true, r')
            | _, _, Some r', _, _, _ => Ret (JBool false, r')
            | _, _, _, Some r', _, _ => Ret (JFloat S754_nan, r')
            | _, _, _, _, Some r', _ => Ret (JFloat (S754_infinity false), r')
            | _, _, _, _, _, Some r' => Ret (JFloat (S754_infinity true), r')
            | _, _, _, _, _, _ =>
                if n =? 45 then scan_number true r else scan_number false s
            end
      end
  end

with elements (fuel : nat) (acc : list json) (s : string)
  : outcome (list json * string) :=
  match fuel with
  | O => malformed
  | S fuel' =>
      match value fuel' s with
      | Raise e => Raise e
      | Ret (v, r) =>
          let r1 := skip_ws r in
          match first_is 93 r1, first_is 44 r1 with
          | Some r', _ => Ret ((acc ++ [v])%list, r')
          | _, Some r' => elements fuel' (acc ++ [v])%list (skip_ws r')
          | _, _ => malformed
          end
      end
  end

with members (fuel : nat) (acc : list (string * json)) (s : string)
  : outcome (list (string * json) * string) :=
  match fuel with
  | O => malformed
  | S fuel' =>
      match first_is 34 s with
      | None => malformed
      | Some r0 =>
          match scanstring r0 with
          | None => malformed
          | Some (k, r) =>
              match first_is 58 (skip_ws r) with
              | None => malformed
              | Some r1 =>
                  match value fuel' (skip_ws r1) with
                  | Raise e => Raise e
                  | Ret (v, r2) =>
                      let r3 := skip_ws r2 in
                      match first_is 125 r3, first_is 44 r3 with
                      | Some r', _ => Ret (dict_set k v acc, r')
                      | _, Some r' =>
                          members fuel' (dict_set k v acc) (skip_ws r')
                      | _, _ => malformed
                      end
                  end
              end
          end
      end
  end.

(** The decoder: one value, with white space around it and nothing else.
    The fuel is more than the decoder uses on a text of this length. *)
Definition ref_loads (s : string) : outcome json :=
  match value (2 * String.length s + 2) (skip_ws s) with
  | Ret (v, r) =>
      match skip_ws r with
      | "" => Ret v
      | _ => malformed
      end
  | Raise e => Raise e
  end.

(** *** The encoder *)

Definition hex (n : N) : ascii :=
  if n <? 10 then ascii_of_N (48 + n) else ascii_of_N (87 + n).

(** One character of a string, as [ensure_ascii] prints it. *)
Definition encode_char (c : ascii) : string :=
  let n := N_of_ascii c in
  if n =? 34 then BS ++ DQ
  else if n =? 92 then BS ++ BS
  else if n =? 10 then BS ++ "n"
  else if n =? 13 then BS ++ "r"
  else if n =? 9 then BS ++ "t"
  else if n =? 8 then BS ++ "b"
  else if n =? 12 then BS ++ "f"
  else if (n <? 32) || (126 <? n)
  then BS ++ "u00" ++ String (hex (n / 16)) (String (hex (n mod 16)) "")
  else String c "".

Fixpoint encode_chars (s : string) : string :=
  match s with
  | "" => ""
  | String c r => encode_char c ++ encode_chars r
  end.

Definition encode_str (s : string) : string :=
  DQ ++ encode_chars s ++ DQ.

Definition str_of_Z (z : Z) : string :=
  NilEmpty.string_of_int (Z.to_int z).

Fixpoint zeros (n : nat) : string :=
  match n with O => "" | S n' => String "0" (zeros n') end.

(** [s] without its trailing zeros, but for one digit that is kept. *)
Fixpoint trim_zeros (s : string) : string :=
  match s with
  | "" => ""
  | String c r =>
      match trim_zeros r with
      | "" => String c ""
      | String c' r' =>
          if (N_of_ascii c' =? 48) && (match r' with "" => true | _ => false end)
          then String c "" else String c (String c' r')
      end
  end.

(** The decimal digits of [m * 2 ^ e], all of them. *)
Definition encode_finite (m : positive) (e : Z) : string :=
  if (0 <=? e)%Z then str_of_Z (Zpos m * 2 ^ e) ++ ".0"
  else
    let k := Z.to_nat (- e) in
    let ds := str_of_Z (Zpos m * 5 ^ (- e)) in
    let ds := zeros (S k - String.length ds) ++ ds in
    let n := (String.length ds - k)%nat in
    substring 0 n ds ++ "." ++ trim_zeros (substring n k ds).

Definition encode_float (f : spec_float) : string :=
  match f with
  | S754_nan => "NaN"
  | S754_infinity false => "Infinity"
  | S754_infinity true => "-Infinity"
  | S754_zero false => "0.0"
  | S754_zero true => "-0.0"
  | S754_finite false m e => encode_finite m e
  | S754_finite true m e => "-" ++ encode_finite m e
  end.

(** The indentation of nesting depth [level] for [indent=2]. *)
Definition newline_indent (level : nat) : string :=
  NL ++ String.concat "" (repeat "  " level).

(** [value] printed at nesting depth [level]. *)
Fixpoint dumps_at (level : nat) (v : json) {struct v} : string :=
  match v with
  | JNull => "null"
  | JBool true => "true"
  | JBool false => "false"
  | JInt z => str_of_Z z
  | JFloat f => encode_float f
  | JStr s => encode_str s
  | JList [] => "[]"
  | JList l =>
      "[" ++ newline_indent (S level)
      ++ String.concat ("," ++ newline_indent (S level))
           (map (dumps_at (S level)) l)
      ++ newline_indent level ++ "]"
  | JDict [] => "{}"
  | JDict items =>
      "{" ++ newline_indent (S level)
      ++ String.concat ("," ++ newline_indent (S level))
           (map (fun kv =>
                   match kv with
                   | (k, x) => encode_str k ++ ": " ++ dumps_at (S level) x
                   end) items)
      ++ newline_indent level ++ "}"
  end.

(** The encoder: [json.dumps(value, indent=2)]. *)
Definition ref_dumps (v : json) : string := dumps_at 0 v.

End RefJson.

Import RefJson.

(** * The vocabulary of the properties *)

(** ** Blocks and pieces *)

(** A block: a string with no paragraph separator in it. *)
Definition is_block (b : string) : Prop := split_nlnl b = [b].

(** [b] does not end in a line feed. *)
Fixpoint open_end (b : string) : Prop :=
  match b with
  | "" => True
  | String c "" => c <> LF
  | String _ r => open_end r
  end.

(** A list of blocks that [split] can return, or a run of consecutive
    blocks of such a list: no block holds a separator, and a block that
    is followed by another one does not end in a line feed. *)
Fixpoint canonical (bs : list string) : Prop :=
  match bs with
  | [] => True
  | b :: rest =>
      is_block b /\
      match rest with [] => True | _ => open_end b /\ canonical rest end
  end.

(** [sdrop n s] is [s[n:]]. *)
Fixpoint sdrop (n : nat) (s : string) : string :=
  match n, s with
  | O, _ => s
  | S n', "" => ""
  | S n', String _ r => sdrop n' r
  end.

(** How a run of emitted chunks came about: one chunk that joins
    accumulated blocks, or the slices of one force-split block. *)
Inductive piece : Type :=
| Joined (chunk : string)
| Sliced (slices : list string).

(** The chunks a piece stands for. *)
Definition emitted (p : piece) : list string :=
  match p with
  | Joined chunk => [chunk]
  | Sliced slices => slices
  end.

(** The paragraph blocks a piece stands for: the blocks of a joined chunk,
    or the one block the slices put together give. *)
Definition blocks_of (p : piece) : list string :=
  match p with
  | Joined chunk => split_nlnl chunk
  | Sliced slices => [String.concat "" slices]
  end.

(** A joined chunk holds blocks within the budget only; the slices are
    those of a block over the budget. *)
Definition piece_ok (count : string -> N) (max_tokens : Z) (p : piece)
  : Prop :=
  match p with
  | Joined chunk =>
      Forall (fun b => (Z.of_N (count b) <= max_tokens)%Z)
             (split_nlnl chunk)
  | Sliced slices =>
      (max_tokens < Z.of_N (count (String.concat "" slices)))%Z
  end.

(** ** A tokenizer to run the model on *)

(** [runs prev s] counts the maximal runs of line feeds and of other
    characters in [s]; [prev] tells whether the character before [s] was a
    line feed. *)
Fixpoint runs (prev : option bool) (s : string) : N :=
  match s with
  | "" => 0
  | String c rest =>
      let k := is_LF c in
      (match prev with
       | Some p => if Bool.eqb p k then 0 else 1
       | None => 1
       end + runs (Some k) rest)%N
  end.

(** A tokenizer for the examples: one token for each run of line feeds and
    for each run of other characters. On words of one letter separated by
    blank lines it counts as the encodings of [tiktoken] do. *)
Definition ref_count (s : string) : N := runs None s.

(** The tokenizer of one token a character. *)
Definition char_count (s : string) : N := N.of_nat (String.length s).

(** The world before any call and any log record. *)
Definition w0 : World := mk_World [] [].

(** The text of two paragraphs [x] and [y]. *)
Definition two_blocks (x y : string) : string := x ++ NLNL ++ y.

(** The texts of the examples: ["a\n\nb"], ["a\n\nb\n\nc"],
    ["a\n\nb\n\nc\n\nd"] and ["abcdefghijkl\n\nmn\n\nop"]. *)
Definition text_ab : string := "a" ++ NLNL ++ "b".
Definition text_abc : string := "a" ++ NLNL ++ "b" ++ NLNL ++ "c".
Definition text_abcd : string :=
  "a" ++ NLNL ++ "b" ++ NLNL ++ "c" ++ NLNL ++ "d".
Definition text_long_short : string :=
  "abcdefghijkl" ++ NLNL ++ "mn" ++ NLNL ++ "op".

(** ** Worlds, documents and models to run the orchestrator on *)

(** [w] with the records [entries] logged after those it has. *)
Definition add_log (w : World) (entries : list (level * string)) : World :=
  mk_World (llm_calls w) (log w ++ entries).

(** The document of claim C6,
    [{"module":"A","description":"d","submodules":{}}], and the object it
    decodes to. *)
Definition doc_description : string :=
  "{" ++ DQ ++ "module" ++ DQ ++ ":" ++ DQ ++ "A" ++ DQ ++ ","
  ++ DQ ++ "description" ++ DQ ++ ":" ++ DQ ++ "d" ++ DQ ++ ","
  ++ DQ ++ "submodules" ++ DQ ++ ":{}}".

Definition obj_description : json :=
  JDict [("module", JStr "A"); ("description", JStr "d");
         ("submodules", JDict [])].

(** The same document with the key [Description] the prompts ask for. *)
Definition doc_Description : string :=
  "{" ++ DQ ++ "module" ++ DQ ++ ":" ++ DQ ++ "A" ++ DQ ++ ","
  ++ DQ ++ "Description" ++ DQ ++ ":" ++ DQ ++ "d" ++ DQ ++ ","
  ++ DQ ++ "submodules" ++ DQ ++ ":{}}".

Definition obj_Description : json :=
  JDict [("module", JStr "A"); ("Description", JStr "d");
         ("submodules", JDict [])].

(** A text of white space only. *)
Fixpoint all_space (s : string) : bool :=
  match s with
  | "" => true
  | String c r => is_space c && all_space r
  end.

(** The line [extract] logs when it starts Pass 2. *)
Definition pass2_line : level * string :=
  (INFO, "Starting Pass 2: Synthesizing and cleaning modules.").

(** The progress lines of Pass 1 for the chunks [i+1] to [i+k] of [n]. *)
Definition pass1_progress (n i k : nat) : list (level * string) :=
  map (fun j => (INFO, ("Processing chunk " ++ str_of_nat (j + 1) ++ "/"
                        ++ str_of_nat n ++ " in Pass 1.")%string))
      (seq i k).

(** A tokenizer that charges 50000 tokens a character, so that a short
    text passes the budget of 120000 tokens. *)
Definition coarse_count (s : string) : N :=
  (50000 * N.of_nat (String.length s))%N.

(** The answer [[{"module":"A","Description":"d","submodules":{}}]]. *)
Definition doc_module_list : string := "[" ++ doc_Description ++ "]".

(** The answer [{"modules":[...]}] that wraps the same list. *)
Definition doc_wrapped_list : string :=
  "{" ++ DQ ++ "modules" ++ DQ ++ ":" ++ doc_module_list ++ "}".

(** A model that answers every request with [doc_module_list]. *)
Definition client_one_module (sent : list request) (req : request)
  : completion :=
  Completion doc_module_list.

(** A model that answers every request with [[]]. *)
Definition client_no_module (sent : list request) (req : request)
  : completion :=
  Completion "[]".


(** The document and the object of one module with no submodule. *)
Definition module_doc (name description : string) : string :=
  "{" ++ DQ ++ "module" ++ DQ ++ ": " ++ DQ ++ name ++ DQ ++ ", "
  ++ DQ ++ "Description" ++ DQ ++ ": " ++ DQ ++ description ++ DQ ++ ", "
  ++ DQ ++ "Submodules" ++ DQ ++ ": {}}".

Definition module_obj (name description : string) : json :=
  JDict [("module", JStr name); ("Description", JStr description);
         ("Submodules", JDict [])].

(** The scenario of two overlapping modules: the text, and a model that
    extracts two records from it and merges them into one when asked to
    synthesize. *)
Definition text_billing : string :=
  "## Billing" ++ NL ++ "Manage billing." ++ NLNL
  ++ "## Billing Settings" ++ NL ++ "Configure billing options.".

Definition client_billing (sent : list request) (req : request)
  : completion :=
  if String.eqb (req_system req) _get_extraction_prompt
  then Completion
         ("[" ++ module_doc "Billing" "Manage billing." ++ ", "
          ++ module_doc "Billing Settings" "Configure billing options."
          ++ "]")
  else Completion
         ("[" ++ module_doc "Billing" "Manage and configure billing." ++ "]").

(** The world after Pass 1 on the text [x] from the empty world. *)
Definition w1_x : World :=
  mk_World
    [mk_request "gpt-4o" _get_extraction_prompt "x"]
    [(INFO, "Starting Pass 1: Raw module extraction.");
     (INFO, "Content was split into 1 chunk(s).");
     (INFO, "Processing chunk 1/1 in Pass 1.")].

(** ** Vocabulary of the further properties of the chunker *)

(** The slices the force-split makes of [block] for a positive number
    [step] of characters: [block[i:i + step]] for [i] in
    [range(0, len(block), step)]. *)
Definition slices_of (block : string) (step : nat) : list string :=
  map (fun i => slice block i step) (range0 (String.length block) step).

(** What the test of the running count allowed when the last block of
    [bs] was accumulated after others: the count of the blocks before it,
    joined, plus its own count is within the budget. *)
Definition within_running_budget (count : string -> N) (max_tokens : Z)
  (bs : list string) : Prop :=
  forall init last,
    bs = init ++ [last] -> init <> [] ->
    (Z.of_N (count (join_nlnl init) + count last) <= max_tokens)%Z.

(** ** Vocabulary of the further properties of the orchestrator *)

(** The text [_call_llm] returns for a call that ends as [c]: the content
    of the completion, or the empty string when the call raised. *)
Definition gateway_text (c : completion) : string :=
  match c with
  | Completion text => text
  | APIStatusError _ _ => ""
  | OtherException _ => ""
  end.

(** How [_parse_llm_output] ends on [text], with the list it returns or
    the exception it raises; this does not depend on the world the parser
    runs in. *)
Definition parser_outcome (json_loads : string -> outcome json)
  (text : string) : outcome (list json) :=
  fst (_parse_llm_output json_loads text w0).

(** Whether the parser returns on [text]. *)
Definition parser_returns (json_loads : string -> outcome json)
  (text : string) : bool :=
  match parser_outcome json_loads text with
  | Ret _ => true
  | Raise _ => false
  end.

(** The request of Pass 1 for a chunk. *)
Definition extraction_request (model_name chunk : string) : request :=
  mk_request model_name _get_extraction_prompt chunk.

(** The texts the gateway returns for the chunks of Pass 1, sent one after
    the other after the calls [sent]. *)
Fixpoint pass1_answers (client : list request -> request -> completion)
  (model_name : string) (sent : list request) (chunks : list string)
  : list string :=
  match chunks with
  | [] => []
  | chunk :: rest =>
      gateway_text (client sent (extraction_request model_name chunk))
      :: pass1_answers client model_name
           (sent ++ [extraction_request model_name chunk]) rest
  end.

(** How Pass 1 ends on the answers [answers] to its requests: with the
    lists the parser returns on them put end to end, or with the exception
    the parser raises on the first answer it raises on. *)
Fixpoint pass1_modules (json_loads : string -> outcome json)
  (answers : list string) : outcome (list json) :=
  match answers with
  | [] => Ret []
  | answer :: rest =>
      obind (parser_outcome json_loads answer) (fun parsed =>
      obind (pass1_modules json_loads rest) (fun others =>
      Ret (parsed ++ others)))
  end.

(** How many of the answers [answers] Pass 1 asks for: all of them, or
    those up to the first the parser raises on. *)
Fixpoint asked (json_loads : string -> outcome json)
  (answers : list string) : nat :=
  match answers with
  | [] => 0
  | answer :: rest =>
      if parser_returns json_loads answer
      then S (asked json_loads rest)
      else 1
  end.

(** The request of Pass 2 for the raw list [raw]. *)
Definition synthesis_request (json_dumps : json -> string)
  (model_name : string) (raw : list json) : request :=
  mk_request model_name _get_synthesis_prompt (json_dumps (JList raw)).

(** A single module whose submodules are a list:
    [{"module":"A","Description":"d","Submodules":["x"]}]. *)
Definition doc_list_submodules : string :=
  "{" ++ DQ ++ "module" ++ DQ ++ ":" ++ DQ ++ "A" ++ DQ ++ ","
  ++ DQ ++ "Description" ++ DQ ++ ":" ++ DQ ++ "d" ++ DQ ++ ","
  ++ DQ ++ "Submodules" ++ DQ ++ ":[" ++ DQ ++ "x" ++ DQ ++ "]}".

(** A JSON document that is one integer of 4301 digits, one more than the
    interpreter converts. *)
Definition long_integer : string :=
  String.concat "" (repeat "1" 4301).

(** A model that answers every request with [long_integer]. *)
Definition client_long_integer (sent : list request) (req : request)
  : completion :=
  Completion long_integer.

(** A model whose every call fails with status 429. *)
Definition client_always_failing (sent : list request) (req : request)
  : completion :=
  APIStatusError 429 "Too Many Requests".

(** ** Vocabulary of the properties of the caller *)

(** The last step of [extract_structured_text] of the preprocessor,
    [[s for s in structured_content if s.strip()]]: the blocks that are
    not blank are kept. *)
Definition nonblank_blocks (structured_content : list string)
  : list string :=
  filter (fun s => negb (is_empty (strip s))) structured_content.

(** [main.py], from the blocks of the pages of one site to the text given
    to [extract]: [all_text_blocks] is extended with the blocks of each
    page in turn; the site is skipped when there is no block, and the text
    is the blocks joined by the paragraph separator otherwise. *)
Definition consolidated_text (pages : list (list string)) : option string :=
  let all_text_blocks := concat pages in
  if nonempty all_text_blocks then Some (join_nlnl all_text_blocks)
  else None.

(** * Properties *)

(** ** The string functions on examples *)

Example split_three_line_feeds :
  split_nlnl ("a" ++ NLNL ++ NL ++ "b") = ["a"; (NL ++ "b")%string].
Proof. reflexivity. Qed.

Example split_trailing_separator :
  split_nlnl ("a" ++ NLNL) = ["a"; ""].
Proof. reflexivity. Qed.

Example strip_both_ends :
  strip (" " ++ NL ++ "a b" ++ NL ++ " ") = "a b".
Proof. reflexivity. Qed.

Example force_split_by_three :
  force_split "abcdefgh" 3 = Ret ["abc"; "def"; "gh"].
Proof. reflexivity. Qed.

Example ref_loads_numbers :
  ref_loads " [1, -20, true, null] "
  = Ret (JList [JInt 1; JInt (-20); JBool true; JNull]).
Proof. reflexivity. Qed.

Example ref_loads_trailing_comma : ref_loads "[1,]" = Raise JSONDecodeError.
Proof. reflexivity. Qed.

(** ** Splitting and joining paragraphs *)

Lemma split_cons2 (c c' : ascii) (r : string) :
  split_nlnl (String c (String c' r))
  = if is_LF c && is_LF c' then "" :: split_nlnl r
    else push_char c (split_nlnl (String c' r)).
Proof. reflexivity. Qed.

Lemma split_nlnl_not_nil (s : string) : split_nlnl s <> [].
Proof.
  destruct s as [|c [|c' r]]; try discriminate.
  rewrite split_cons2.
  destruct (is_LF c && is_LF c'); [discriminate|].
  unfold push_char. destruct (split_nlnl (String c' r)); discriminate.
Qed.

Lemma is_LF_true (c : ascii) : is_LF c = true -> c = LF.
Proof. unfold is_LF. apply Ascii.eqb_eq. Qed.

(** Induction on a string that follows the recursion of [split_nlnl]. *)
Lemma string_pair_ind (P : string -> Prop) :
  P "" ->
  (forall c, P (String c "")) ->
  (forall c c' r, P r -> P (String c' r) -> P (String c (String c' r))) ->
  forall s, P s.
Proof.
  intros H0 H1 H2 s.
  assert (H : P s /\ forall c, P (String c s)).
  { induction s as [|c' r [IH1 IH2]].
    - split; [exact H0 | exact H1].
    - split; [apply IH2 | intro c; apply H2; [exact IH1 | apply IH2]]. }
  apply H.
Qed.

Lemma join_push_char (c : ascii) (bs : list string) :
  bs <> [] -> join_nlnl (push_char c bs) = String c (join_nlnl bs).
Proof.
  destruct bs as [|b [|b' bs]]; intro H; [contradiction | reflexivity | reflexivity].
Qed.

(** Joining what [split] returned gives the text back. *)
Lemma join_split (s : string) : join_nlnl (split_nlnl s) = s.
Proof.
  induction s as [|c|c c' r IHr IHc'] using string_pair_ind; try reflexivity.
  rewrite split_cons2.
  destruct (is_LF c) eqn:Ec; destruct (is_LF c') eqn:Ec'; simpl andb; cbv iota.
  - apply is_LF_true in Ec, Ec'. subst.
    unfold join_nlnl in *. simpl.
    destruct (split_nlnl r) eqn:E; [now apply split_nlnl_not_nil in E|].
    rewrite IHr. reflexivity.
  - rewrite join_push_char by apply split_nlnl_not_nil. now rewrite IHc'.
  - rewrite join_push_char by apply split_nlnl_not_nil. now rewrite IHc'.
  - rewrite join_push_char by apply split_nlnl_not_nil. now rewrite IHc'.
Qed.

Lemma push_char_inj (c : ascii) (bs : list string) (b : string) :
  bs <> [] -> push_char c bs = [String c b] -> bs = [b].
Proof.
  destruct bs as [|x bs]; [contradiction|]. simpl. intros _ H.
  now injection H as -> ->.
Qed.

Lemma is_block_tail (c : ascii) (b : string) :
  is_block (String c b) -> is_block b.
Proof.
  unfold is_block. destruct b as [|c' r]; [reflexivity|].
  rewrite split_cons2. destruct (is_LF c && is_LF c'); [discriminate|].
  apply push_char_inj, split_nlnl_not_nil.
Qed.

Lemma is_block_head (c c' : ascii) (r : string) :
  is_block (String c (String c' r)) -> is_LF c && is_LF c' = false.
Proof.
  unfold is_block. rewrite split_cons2.
  destruct (is_LF c && is_LF c'); [discriminate | reflexivity].
Qed.

(** Splitting a block followed by a separator and more text. *)
Lemma split_block_app (b rest : string) :
  is_block b -> open_end b ->
  split_nlnl (b ++ NLNL ++ rest) = b :: split_nlnl rest.
Proof.
  induction b as [|c b IH]; intros Hb Ho.
  - reflexivity.
  - destruct b as [|c' r].
    + simpl in Ho. simpl.
      destruct (is_LF c) eqn:Ec; [apply is_LF_true in Ec; contradiction|].
      reflexivity.
    + change (String c (String c' r) ++ NLNL ++ rest)%string
        with (String c (String c' (r ++ NLNL ++ rest))).
      rewrite split_cons2, (is_block_head _ _ _ Hb).
      change (String c' (r ++ NLNL ++ rest))
        with (String c' r ++ NLNL ++ rest)%string.
      rewrite IH; [reflexivity | now apply is_block_tail in Hb | exact Ho].
Qed.

Lemma split_join_canonical (bs : list string) :
  bs <> [] -> canonical bs -> split_nlnl (join_nlnl bs) = bs.
Proof.
  induction bs as [|b rest IH]; [contradiction|]. intros _ [Hb Hrest].
  destruct rest as [|b' rest'].
  - exact Hb.
  - destruct Hrest as [Ho Hc].
    change (join_nlnl (b :: b' :: rest'))
      with (b ++ NLNL ++ join_nlnl (b' :: rest'))%string.
    rewrite split_block_app by assumption.
    now rewrite IH.
Qed.

Lemma split_head (c : ascii) (r : string) :
  exists b bs, split_nlnl (String c r) = b :: bs /\
    ((b = "" /\ is_LF c = true /\ bs <> []) \/ exists b0, b = String c b0).
Proof.
  destruct r as [|x r'].
  - exists (String c ""), []. split; [reflexivity | right; now exists ""].
  - rewrite split_cons2. destruct (is_LF c) eqn:Ec, (is_LF x) eqn:Ex; simpl andb; cbv iota.
    + exists "", (split_nlnl r'). split; [reflexivity|].
      left. repeat split. apply split_nlnl_not_nil.
    + destruct (split_nlnl (String x r')) as [|b bs] eqn:E;
        [now apply split_nlnl_not_nil in E|].
      exists (String c b), bs. split; [reflexivity | right; now exists b].
    + destruct (split_nlnl (String x r')) as [|b bs] eqn:E;
        [now apply split_nlnl_not_nil in E|].
      exists (String c b), bs. split; [reflexivity | right; now exists b].
    + destruct (split_nlnl (String x r')) as [|b bs] eqn:E;
        [now apply split_nlnl_not_nil in E|].
      exists (String c b), bs. split; [reflexivity | right; now exists b].
Qed.

Lemma canonical_push (c c' : ascii) (r : string) :
  is_LF c && is_LF c' = false ->
  canonical (split_nlnl (String c' r)) ->
  canonical (push_char c (split_nlnl (String c' r))).
Proof.
  intros Hf Hc.
  destruct (split_head c' r) as (b & bs & E & H). rewrite E in *.
  destruct Hc as [Hb Hrest]. simpl push_char. split.
  - destruct H as [(-> & _ & _) | [b0 ->]]; [reflexivity|].
    unfold is_block. rewrite split_cons2, Hf. unfold is_block in Hb.
    now rewrite Hb.
  - destruct bs as [|b' bs']; [exact I|]. destruct Hrest as [Ho Hc].
    split; [|exact Hc].
    destruct H as [(-> & Hc' & _) | [b0 ->]]; [|exact Ho].
    rewrite Hc', andb_true_r in Hf. simpl. intros ->.
    unfold is_LF in Hf. now rewrite Ascii.eqb_refl in Hf.
Qed.

(** What [split] returns is canonical. *)
Lemma canonical_split (s : string) : canonical (split_nlnl s).
Proof.
  induction s as [|c|c c' r IHr IHc'] using string_pair_ind.
  - split; [reflexivity | exact I].
  - split; [reflexivity | exact I].
  - rewrite split_cons2. destruct (is_LF c && is_LF c') eqn:E.
    + split; [reflexivity|].
      destruct (split_nlnl r) eqn:Er; [exact I | split; [exact I | exact IHr]].
    + now apply canonical_push.
Qed.

Lemma canonical_app_r (xs ys : list string) :
  canonical (xs ++ ys) -> canonical ys.
Proof.
  induction xs as [|x xs IH]; [intro H; exact H|]. intro H.
  change (canonical (x :: (xs ++ ys))) in H. destruct H as [_ H].
  destruct (xs ++ ys) eqn:E.
  - destruct xs; [simpl in E; subst; exact I | discriminate].
  - apply IH. apply H.
Qed.

Lemma canonical_app_l (xs ys : list string) :
  canonical (xs ++ ys) -> canonical xs.
Proof.
  induction xs as [|x xs IH]; [intros _; exact I|]. intro H.
  change (canonical (x :: (xs ++ ys))) in H. destruct H as [Hx H].
  split; [exact Hx|]. destruct xs as [|x' xs']; [exact I|].
  change ((x' :: xs') ++ ys) with (x' :: (xs' ++ ys)) in H. destruct H as [Ho Hc]. split; [exact Ho|]. apply IH. exact Hc.
Qed.

(** ** Slices of a force-split block *)

Lemma substring_sdrop (n i m : nat) (s : string) :
  substring (n + i) m s = substring i m (sdrop n s).
Proof.
  revert s. induction n as [|n IH]; intro s; [reflexivity|].
  destruct s as [|c r]; simpl.
  - destruct i, m; reflexivity.
  - apply IH.
Qed.

Lemma take_sdrop (n : nat) (s : string) :
  (substring 0 n s ++ sdrop n s)%string = s.
Proof.
  revert s. induction n as [|n IH]; intro s.
  - destruct s; reflexivity.
  - destruct s as [|c r]; [reflexivity|]. simpl. now rewrite IH.
Qed.

Lemma length_sdrop (n : nat) (s : string) :
  String.length (sdrop n s) = String.length s - n.
Proof.
  revert s. induction n as [|n IH]; intro s; simpl.
  - lia.
  - destruct s as [|c r]; [reflexivity | apply IH].
Qed.

Lemma concat_empty_cons (x : string) (l : list string) :
  String.concat "" (x :: l) = (x ++ String.concat "" l)%string.
Proof.
  destruct l; simpl; [|reflexivity].
  induction x; simpl; congruence.
Qed.

Lemma slices_concat (step k : nat) (s : string) :
  String.length s <= k * step ->
  String.concat "" (map (fun i => slice s (i * step) step) (seq 0 k)) = s.
Proof.
  revert s. induction k as [|k IH]; intros s Hlen.
  - destruct s; [reflexivity | simpl in Hlen; lia].
  - rewrite <- cons_seq, <- seq_shift, map_cons, map_map, concat_empty_cons.
    erewrite map_ext.
    2:{ intro i. unfold slice. change (S i * step) with (step + i * step).
        apply substring_sdrop. }
    change (fun i => substring (i * step) step (sdrop step s))
      with (fun i => slice (sdrop step s) (i * step) step).
    rewrite IH by (rewrite length_sdrop; simpl in Hlen; lia).
    apply take_sdrop.
Qed.

(** The slices of a force-split block, put together, are the block. *)
Lemma range0_slices (step : nat) (s : string) :
  0 < step ->
  String.concat ""
    (map (fun i => slice s i step) (range0 (String.length s) step)) = s.
Proof.
  intro Hs. unfold range0. rewrite map_map. apply slices_concat.
  pose proof (Nat.div_mod (String.length s + step - 1) step ltac:(lia)) as Hd.
  pose proof (Nat.mod_upper_bound (String.length s + step - 1) step ltac:(lia)).
  nia.
Qed.

Section ChunkerProperties.

Variable count : string -> N.
Variable max_tokens : Z.
Hypothesis max_tokens_pos : (0 < max_tokens)%Z.

Let small (b : string) : Prop := (Z.of_N (count b) <= max_tokens)%Z.

Lemma force_split_returns (block : string) :
  exists slices,
    force_split block (max_tokens * 3) = Ret slices /\
    String.concat "" slices = block.
Proof.
  unfold force_split.
  destruct (Z.eqb_spec (max_tokens * 3) 0) as [E|_]; [lia|].
  destruct (Z.ltb_spec (max_tokens * 3) 0) as [E|_]; [lia|].
  eexists. split; [reflexivity|]. apply range0_slices. lia.
Qed.

(** Closing the current chunk gives back the accumulated blocks. *)
Lemma flushed_piece (blocks : list string) :
  blocks <> [] -> canonical blocks -> Forall small blocks ->
  blocks_of (Joined (join_nlnl blocks)) = blocks /\
  piece_ok count max_tokens (Joined (join_nlnl blocks)).
Proof.
  intros Hne Hc Hs. unfold blocks_of, piece_ok.
  rewrite split_join_canonical by assumption. split; [reflexivity | exact Hs].
Qed.

Lemma nonempty_true {A : Type} (l : list A) : nonempty l = true -> l <> [].
Proof. destruct l; [discriminate | discriminate]. Qed.

Lemma nonempty_false {A : Type} (l : list A) : nonempty l = false -> l = [].
Proof. destruct l; [reflexivity | discriminate]. Qed.

(** The invariant of the loop of the chunker: the chunks emitted so far
    read back, piece by piece, as the blocks consumed so far, less the
    ones still accumulated. *)
Lemma chunk_loop_pieces (rest : list string) :
  forall st,
    canonical (current_chunk_blocks st ++ rest) ->
    Forall small (current_chunk_blocks st) ->
    exists st' pieces,
      chunk_loop count max_tokens rest st = Ret st' /\
      chunks st' = chunks st ++ flat_map emitted pieces /\
      current_chunk_blocks st ++ rest
        = flat_map blocks_of pieces ++ current_chunk_blocks st' /\
      Forall (piece_ok count max_tokens) pieces /\
      Forall small (current_chunk_blocks st') /\
      canonical (current_chunk_blocks st').
Proof.
  induction rest as [|block rest IH]; intros st Hc Hs.
  - exists st, []. simpl. rewrite !app_nil_r in *. repeat split; auto.
  - pose proof (canonical_app_l _ _ Hc) as Hcur.
    pose proof (canonical_app_r _ _ Hc) as Htail.
    change (block :: rest) with ([block] ++ rest) in Htail.
    simpl chunk_loop. unfold chunk_step.
    destruct (Z.ltb_spec max_tokens (Z.of_N (count block))) as [Hbig|Hfit].
    + (* the block is over the budget: flush, then force-split *)
      destruct (force_split_returns block) as (slices & -> & Hcat).
      simpl obind.
      destruct (nonempty (current_chunk_blocks st)) eqn:Hne.
      * apply nonempty_true in Hne.
        destruct (flushed_piece _ Hne Hcur Hs) as [Hb Hok].
        edestruct IH as (st' & pieces & -> & Hch & Hbl & Hpk & Hs' & Hc');
          [ | | exists st', (Joined (join_nlnl (current_chunk_blocks st))
                              :: Sliced slices :: pieces) ].
        { simpl. exact (canonical_app_r _ _ Htail). }
        { simpl. constructor. }
        simpl in Hch, Hbl. repeat split; auto.
        -- rewrite Hch. simpl. now rewrite <- !app_assoc.
        -- cbn [flat_map]. rewrite Hb. cbn [blocks_of]. rewrite Hcat.
           rewrite <- !app_assoc. simpl. now rewrite Hbl.
        -- constructor; [exact Hok|]. constructor; [|exact Hpk].
           unfold piece_ok. now rewrite Hcat.
      * apply nonempty_false in Hne.
        edestruct IH as (st' & pieces & -> & Hch & Hbl & Hpk & Hs' & Hc');
          [ | | exists st', (Sliced slices :: pieces) ].
        { simpl. rewrite Hne. exact (canonical_app_r _ _ Htail). }
        { simpl. rewrite Hne. constructor. }
        simpl in Hch, Hbl. rewrite Hne in Hbl. repeat split; auto.
        -- rewrite Hch. simpl. now rewrite <- !app_assoc.
        -- rewrite Hne. cbn [flat_map blocks_of]. rewrite Hcat. simpl.
           now rewrite <- Hbl.
        -- constructor; [|exact Hpk]. unfold piece_ok. now rewrite Hcat.
    + (* the block fits: flush if the running count says so, then append *)
      destruct ((max_tokens <?
                 Z.of_N (current_chunk_tokens st + count block))%Z
                && nonempty (current_chunk_blocks st)) eqn:Hflush.
      * apply andb_true_iff in Hflush. destruct Hflush as [_ Hne].
        apply nonempty_true in Hne.
        destruct (flushed_piece _ Hne Hcur Hs) as [Hb Hok].
        simpl obind.
        edestruct IH as (st' & pieces & -> & Hch & Hbl & Hpk & Hs' & Hc');
          [ | | exists st', (Joined (join_nlnl (current_chunk_blocks st))
                              :: pieces) ].
        { simpl. exact Htail. }
        { simpl. constructor; [exact Hfit | constructor]. }
        simpl in Hch, Hbl. repeat split; auto.
        -- rewrite Hch. simpl. now rewrite <- !app_assoc.
        -- cbn [flat_map]. rewrite Hb, <- app_assoc. now rewrite <- Hbl.
      * simpl obind.
        edestruct IH as (st' & pieces & -> & Hch & Hbl & Hpk & Hs' & Hc');
          [ | | exists st', pieces ].
        { simpl. now rewrite <- app_assoc. }
        { simpl. apply Forall_app. split; [exact Hs|].
          constructor; [exact Hfit | constructor]. }
        simpl in Hch, Hbl. repeat split; auto.
        rewrite <- Hbl, <- app_assoc. reflexivity.
Qed.

End ChunkerProperties.

(** For a positive budget the chunker returns. *)
Lemma chunk_text_returns (count : string -> N) (text : string)
  (max_tokens : Z) :
  (0 < max_tokens)%Z ->
  exists chunks, chunk_text count text max_tokens = Ret chunks.
Proof.
  intro Hpos.
  destruct (chunk_loop_pieces count max_tokens Hpos (split_nlnl text)
              (mk_chunker_state [] [] 0))
    as (st & pieces & Hloop & _).
  { apply canonical_split. }
  { constructor. }
  exists (finish st). unfold chunk_text. now rewrite Hloop.
Qed.

(** ** The chunker: claims C1, C2, C3 and C9 *)

Lemma chunk_text_logged (count : string -> N) (text : string)
  (max_tokens : Z) (chunks : list string) (w : World) :
  chunk_text count text max_tokens = Ret chunks ->
  _chunk_text_by_tokens count text max_tokens w
  = (Ret chunks,
     mk_World (llm_calls w)
       (log w ++ [(INFO, ("Content was split into "
                          ++ str_of_nat (length chunks)
                          ++ " chunk(s).")%string)])).
Proof.
  intro H. unfold _chunk_text_by_tokens, bind, lift. rewrite H. reflexivity.
Qed.

(** C3. For a positive budget the chunker returns, and what it returns
    reads as a sequence of pieces, each a chunk joining blocks within the
    budget or the slices of one block over the budget, such that the
    blocks of the joined chunks and the blocks that the slices put together
    give are, in order, exactly the blocks of the input: none is dropped,
    moved or repeated. *)
Theorem C3_chunks_keep_every_block (count : string -> N) (text : string)
  (max_tokens : Z) (w : World) :
  (0 < max_tokens)%Z ->
  exists chunks pieces,
    fst (_chunk_text_by_tokens count text max_tokens w) = Ret chunks /\
    chunks = flat_map emitted pieces /\
    flat_map blocks_of pieces = split_nlnl text /\
    Forall (piece_ok count max_tokens) pieces.
Proof.
  intro Hpos.
  destruct (chunk_loop_pieces count max_tokens Hpos (split_nlnl text)
              (mk_chunker_state [] [] 0))
    as (st & pieces & Hloop & Hch & Hbl & Hok & Hs & Hc).
  { apply canonical_split. }
  { constructor. }
  simpl in Hch, Hbl.
  assert (Hret : chunk_text count text max_tokens = Ret (finish st)).
  { unfold chunk_text. now rewrite Hloop. }
  unfold finish in *.
  destruct (nonempty (current_chunk_blocks st)) eqn:Hne.
  - apply nonempty_true in Hne.
    destruct (flushed_piece count max_tokens _ Hne Hc Hs) as [Hb Hk].
    exists (chunks st ++ [join_nlnl (current_chunk_blocks st)]),
           (pieces ++ [Joined (join_nlnl (current_chunk_blocks st))]).
    rewrite (chunk_text_logged _ _ _ _ _ Hret), !flat_map_app. simpl fst.
    cbn [flat_map]. rewrite Hb, !app_nil_r.
    repeat split; [now rewrite Hch | now rewrite Hbl |].
    apply Forall_app. split; [exact Hok | constructor; [exact Hk | constructor]].
  - apply nonempty_false in Hne. rewrite Hne, app_nil_r in Hbl.
    exists (chunks st), pieces.
    rewrite (chunk_text_logged _ _ _ _ _ Hret). simpl fst.
    repeat split; [exact Hch | now rewrite Hbl | exact Hok].
Qed.

Example chunks_of_text_long_short :
  chunk_text char_count text_long_short 3
  = Ret ["abcdefghi"; "jkl"; "mn"; "op"].
Proof. reflexivity. Qed.

Lemma C3_chunks_keep_every_block_witness :
  (0 < 3)%Z /\
  exists chunks pieces,
    fst (_chunk_text_by_tokens char_count text_long_short 3 w0)
    = Ret chunks /\
    chunks = flat_map emitted pieces /\
    flat_map blocks_of pieces = split_nlnl text_long_short /\
    Forall (piece_ok char_count 3) pieces.
Proof.
  split; [lia|].
  apply (C3_chunks_keep_every_block char_count text_long_short 3 w0).
  lia.
Defined.

(** C9, as the code has it. For the empty text, a positive budget and a
    tokenizer that counts no token in the empty string, the chunker returns
    one chunk, the empty string: [''.split('\n\n')] is [['']], and the
    empty block is accumulated and emitted like any other. *)
Theorem C9_empty_text_one_empty_chunk (count : string -> N)
  (max_tokens : Z) (w : World) :
  (0 < max_tokens)%Z -> count "" = 0%N ->
  fst (_chunk_text_by_tokens count "" max_tokens w) = Ret [""].
Proof.
  intros Hpos H0.
  rewrite (chunk_text_logged count "" max_tokens [""]); [reflexivity|].
  unfold chunk_text. simpl. unfold chunk_step. simpl. rewrite H0. simpl.
  destruct (Z.ltb_spec max_tokens 0) as [E|_]; [lia|].
  rewrite andb_false_r. reflexivity.
Qed.

Lemma C9_empty_text_one_empty_chunk_witness :
  (0 < 1)%Z /\ ref_count "" = 0%N /\
  fst (_chunk_text_by_tokens ref_count "" 1 w0) = Ret [""].
Proof.
  split; [lia|]. split; [reflexivity|].
  apply (C9_empty_text_one_empty_chunk ref_count 1 w0); [lia | reflexivity].
Defined.

(** C9 as stated fails: on the empty text with budget 1 the chunker does
    not return the empty sequence. *)
Lemma C9_empty_text_counterexample :
  fst (_chunk_text_by_tokens ref_count "" 1 w0) <> Ret [].
Proof. vm_compute. discriminate. Qed.

(** The two ways an iteration goes for a block within the budget. *)
Lemma chunk_step_append (count : string -> N) (max_tokens : Z)
  (st : chunker_state) (block : string) :
  (Z.of_N (count block) <= max_tokens)%Z ->
  current_chunk_blocks st = [] \/
  (Z.of_N (current_chunk_tokens st + count block) <= max_tokens)%Z ->
  chunk_step count max_tokens st block
  = Ret (mk_chunker_state (chunks st) (current_chunk_blocks st ++ [block])
           (current_chunk_tokens st
            + count (join_nlnl (current_chunk_blocks st ++ [block])))%N).
Proof.
  destruct st as [done cur toks].
  cbn [current_chunk_blocks current_chunk_tokens chunks].
  intros Hfit Hroom. unfold chunk_step.
  cbn [current_chunk_blocks current_chunk_tokens chunks].
  destruct (Z.ltb_spec max_tokens (Z.of_N (count block))) as [E|_]; [lia|].
  destruct Hroom as [-> | Hroom].
  - cbn [nonempty]. now rewrite andb_false_r.
  - destruct (Z.ltb_spec max_tokens (Z.of_N (toks + count block)))
      as [E|_]; [lia | reflexivity].
Qed.

Lemma chunk_step_flush (count : string -> N) (max_tokens : Z)
  (st : chunker_state) (block : string) :
  (Z.of_N (count block) <= max_tokens)%Z ->
  (max_tokens < Z.of_N (current_chunk_tokens st + count block))%Z ->
  current_chunk_blocks st <> [] ->
  chunk_step count max_tokens st block
  = Ret (mk_chunker_state
           (chunks st ++ [join_nlnl (current_chunk_blocks st)]) [block]
           (0 + count (join_nlnl [block]))%N).
Proof.
  intros Hfit Hover Hne. unfold chunk_step.
  destruct (Z.ltb_spec max_tokens (Z.of_N (count block))) as [E|_]; [lia|].
  destruct (Z.ltb_spec max_tokens
              (Z.of_N (current_chunk_tokens st + count block)))
    as [_|E]; [|lia].
  destruct (current_chunk_blocks st); [contradiction | reflexivity].
Qed.

Lemma chunk_loop_cons (count : string -> N) (max_tokens : Z)
  (st st' : chunker_state) (block : string) (rest : list string) :
  chunk_step count max_tokens st block = Ret st' ->
  chunk_loop count max_tokens (block :: rest) st
  = chunk_loop count max_tokens rest st'.
Proof. intro H. simpl. now rewrite H. Qed.

(** C1 fails on the code. Take two blocks [x] and [y] whose own counts add
    up to at most the budget, so that neither goes through the force-split
    path. The chunker accumulates both and emits the one chunk
    [x + '\n\n' + y]: the separator is not counted when the chunker
    decides to accumulate [y], and when the joined text counts more than
    the budget the emitted chunk is over it. *)
Theorem C1_joined_chunk_over_budget (count : string -> N) (x y : string)
  (max_tokens : Z) (w : World) :
  (0 < max_tokens)%Z ->
  split_nlnl (two_blocks x y) = [x; y] ->
  (Z.of_N (count x + count y) <= max_tokens)%Z ->
  (max_tokens < Z.of_N (count (two_blocks x y)))%Z ->
  Forall (fun b => (Z.of_N (count b) <= max_tokens)%Z)
         (split_nlnl (two_blocks x y)) /\
  fst (_chunk_text_by_tokens count (two_blocks x y) max_tokens w)
  = Ret [two_blocks x y] /\
  ~ (Z.of_N (count (two_blocks x y)) <= max_tokens)%Z.
Proof.
  intros _ Hsplit Hsum Hover. rewrite Hsplit. repeat split.
  - repeat constructor; lia.
  - rewrite (chunk_text_logged count _ max_tokens [two_blocks x y]);
      [reflexivity|].
    unfold chunk_text. rewrite Hsplit. simpl chunk_loop. unfold chunk_step.
    cbn [current_chunk_blocks current_chunk_tokens chunks nonempty app].
    destruct (Z.ltb_spec max_tokens (Z.of_N (count x))) as [E|_]; [lia|].
    rewrite andb_false_r.
    cbn [obind current_chunk_blocks current_chunk_tokens chunks nonempty app].
    destruct (Z.ltb_spec max_tokens (Z.of_N (count y))) as [E|_]; [lia|].
    change (join_nlnl [x]) with x.
    destruct (Z.ltb_spec max_tokens (Z.of_N (0 + count x + count y)))
      as [E|_]; [lia|].
    reflexivity.
  - lia.
Qed.

Lemma C1_joined_chunk_over_budget_witness :
  (0 < 2)%Z /\
  split_nlnl (two_blocks "a" "b") = ["a"; "b"] /\
  (Z.of_N (ref_count "a" + ref_count "b") <= 2)%Z /\
  (2 < Z.of_N (ref_count (two_blocks "a" "b")))%Z /\
  Forall (fun b => (Z.of_N (ref_count b) <= 2)%Z)
         (split_nlnl (two_blocks "a" "b")) /\
  fst (_chunk_text_by_tokens ref_count (two_blocks "a" "b") 2 w0)
  = Ret [two_blocks "a" "b"] /\
  ~ (Z.of_N (ref_count (two_blocks "a" "b")) <= 2)%Z.
Proof.
  split; [reflexivity|]. split; [reflexivity|].
  split; [vm_compute; discriminate|]. split; [reflexivity|].
  apply (C1_joined_chunk_over_budget ref_count "a" "b" 2 w0);
    [reflexivity | reflexivity | vm_compute; discriminate | reflexivity].
Defined.

(** C2 fails on the code. Take the text of four one-letter paragraphs and
    a tokenizer that counts one token a letter and [k] tokens a separator,
    so that the text counts [4 + 3 * k] tokens, and take that count for
    the budget. The chunker returns two chunks: each time a block is
    added, the running count is increased by the count of all the blocks
    accumulated so far ([1], then [1 + (2 + k)], then
    [3 + k + (3 + 2 * k)]), so it passes the budget before the text
    does. *)
Theorem C2_text_within_budget_two_chunks (count : string -> N) (k : N)
  (w : World) :
  count "a" = 1%N -> count "b" = 1%N -> count "c" = 1%N ->
  count "d" = 1%N ->
  count text_ab = (2 + k)%N -> count text_abc = (3 + 2 * k)%N ->
  count text_abcd = (4 + 3 * k)%N ->
  (Z.of_N (count text_abcd) <= Z.of_N (4 + 3 * k))%Z /\
  fst (_chunk_text_by_tokens count text_abcd (Z.of_N (4 + 3 * k)) w)
  = Ret [text_abc; "d"].
Proof.
  intros Ha Hb Hc Hd Hab Habc Habcd. split; [lia|].
  rewrite (chunk_text_logged count _ _ [text_abc; "d"]); [reflexivity|].
  unfold chunk_text.
  change (split_nlnl text_abcd) with ["a"; "b"; "c"; "d"].
  erewrite chunk_loop_cons;
    [| apply chunk_step_append; cbn [current_chunk_blocks current_chunk_tokens];
       [lia | now left]].
  cbn [current_chunk_blocks current_chunk_tokens chunks app].
  change (join_nlnl ["a"]) with "a". rewrite Ha.
  erewrite chunk_loop_cons;
    [| apply chunk_step_append; cbn [current_chunk_blocks current_chunk_tokens];
       [lia | right; lia]].
  cbn [current_chunk_blocks current_chunk_tokens chunks app].
  change (join_nlnl ["a"; "b"]) with text_ab. rewrite Hab.
  erewrite chunk_loop_cons;
    [| apply chunk_step_append; cbn [current_chunk_blocks current_chunk_tokens];
       [lia | right; lia]].
  cbn [current_chunk_blocks current_chunk_tokens chunks app].
  change (join_nlnl ["a"; "b"; "c"]) with text_abc. rewrite Habc.
  erewrite chunk_loop_cons;
    [| apply chunk_step_flush; cbn [current_chunk_blocks current_chunk_tokens];
       [lia | lia | discriminate]].
  reflexivity.
Qed.

Lemma C2_text_within_budget_two_chunks_witness :
  ref_count text_abcd = 7%N /\
  (Z.of_N (ref_count text_abcd) <= 7)%Z /\
  fst (_chunk_text_by_tokens ref_count text_abcd 7 w0)
  = Ret [text_abc; "d"].
Proof.
  split; [reflexivity|].
  apply (C2_text_within_budget_two_chunks ref_count 1 w0); reflexivity.
Defined.

(** ** The response parser: claims C6 and C7 *)

(** The limit on the digits of an integer: 4300 digits are converted, 4301
    are not, and a number with a fraction is not an integer. *)
Example ref_loads_integer_limit :
  (exists z, ref_loads (String.concat "" (repeat "1" 4300)) = Ret (JInt z)) /\
  ref_loads long_integer = Raise ValueError /\
  (exists f, ref_loads (long_integer ++ ".5") = Ret (JFloat f)) /\
  ref_loads ("[" ++ long_integer) = Raise ValueError /\
  ref_loads ("[1,," ++ long_integer ++ "]") = Raise JSONDecodeError.
Proof.
  split; [eexists; vm_compute; reflexivity|].
  split; [vm_compute; reflexivity|].
  split; [eexists; vm_compute; reflexivity|].
  split; vm_compute; reflexivity.
Qed.

Example ref_loads_doc_description :
  ref_loads doc_description = Ret obj_description.
Proof. reflexivity. Qed.

Example ref_loads_doc_Description :
  ref_loads doc_Description = Ret obj_Description.
Proof. reflexivity. Qed.

(** A list of modules is returned as it is, and so is the first list found
    in a mapping. *)
Example parse_module_list :
  _parse_llm_output ref_loads doc_module_list w0
  = (Ret [obj_Description], w0).
Proof. reflexivity. Qed.

Example parse_wrapped_module_list :
  _parse_llm_output ref_loads doc_wrapped_list w0
  = (Ret [obj_Description], w0).
Proof. reflexivity. Qed.

(** What the parser does with a document that decodes. *)
Lemma parse_decoded (json_loads : string -> outcome json)
  (response_text : string) (data : json) (w : World) :
  response_text <> "" ->
  json_loads response_text = Ret data ->
  _parse_llm_output json_loads response_text w
  = match data with
    | JList l => (Ret l, w)
    | JDict items =>
        match first_list_value items with
        | Some value => (Ret value, w)
        | None =>
            if has_key "module" items && has_key "Description" items
            then (Ret [data],
                  add_log w
                    [(WARNING,
                      "LLM returned a single module object, wrapping it in a list.")])
            else (Ret [],
                  add_log w
                    [(WARNING,
                      ("Could not parse a valid module list from LLM response: "
                       ++ response_text)%string)])
        end
    | _ => (Ret [],
            add_log w
              [(WARNING,
                ("Could not parse a valid module list from LLM response: "
                 ++ response_text)%string)])
    end.
Proof.
  intros Hne Hdec. unfold _parse_llm_output.
  destruct response_text as [|c r]; [contradiction|].
  cbn [is_empty]. unfold try_except, bind, loads, lift. rewrite Hdec.
  cbn [ret]. destruct data as [| | | | |l|items]; try reflexivity.
  destruct (first_list_value items); [reflexivity|].
  destruct (has_key "module" items && has_key "Description" items);
    reflexivity.
Qed.

(** What the parser does with a text on which [json.loads] raises
    [JSONDecodeError]. *)
Lemma parse_undecodable (json_loads : string -> outcome json)
  (response_text : string) (w : World) :
  response_text <> "" ->
  json_loads response_text = Raise JSONDecodeError ->
  _parse_llm_output json_loads response_text w
  = (Ret [],
     add_log w
       [(ERROR,
         ("Failed to decode JSON from LLM response: "
          ++ response_text)%string)]).
Proof.
  intros Hne Hdec. unfold _parse_llm_output.
  destruct response_text as [|c r]; [contradiction|].
  cbn [is_empty]. unfold try_except, bind, loads, lift. rewrite Hdec.
  reflexivity.
Qed.

(** What the parser does with a text on which [json.loads] raises an
    exception that is not a [JSONDecodeError]: the handler does not catch
    it. *)
Lemma parse_escapes (json_loads : string -> outcome json)
  (response_text : string) (e : exn) (w : World) :
  response_text <> "" ->
  json_loads response_text = Raise e ->
  e <> JSONDecodeError ->
  _parse_llm_output json_loads response_text w = (Raise e, w).
Proof.
  intros Hne Hdec He. unfold _parse_llm_output.
  destruct response_text as [|c r]; [contradiction|].
  cbn [is_empty]. unfold try_except, bind, loads, lift. rewrite Hdec.
  destruct e; [contradiction | reflexivity | reflexivity].
Qed.

Lemma parse_empty (json_loads : string -> outcome json) (w : World) :
  _parse_llm_output json_loads "" w = (Ret [], w).
Proof. reflexivity. Qed.

(** How the parser ends, and what it logs, in any world. *)
Lemma parse_value (json_loads : string -> outcome json) (text : string)
  (w : World) :
  exists entries,
    _parse_llm_output json_loads text w
    = (parser_outcome json_loads text, add_log w entries)
    /\ length entries <= 1.
Proof.
  assert (Hw : forall w' : World, w' = add_log w' []).
  { intro w'. unfold add_log. rewrite app_nil_r. now destruct w'. }
  unfold parser_outcome.
  destruct text as [|c r] eqn:E.
  - exists []. split; [|auto]. cbn. apply f_equal, Hw.
  - rewrite <- E. assert (Hne : text <> "") by (subst; discriminate).
    destruct (json_loads text) as [data|e] eqn:Hdec.
    + rewrite !(parse_decoded _ _ _ _ Hne Hdec).
      destruct data as [| | | | |l|items];
        try (eexists; split; [reflexivity | cbn; lia]).
      * exists []. split; [now rewrite <- Hw | auto].
      * destruct (first_list_value items) as [value|].
        -- exists []. split; [now rewrite <- Hw | auto].
        -- destruct (has_key "module" items && has_key "Description" items);
             eexists; (split; [reflexivity | cbn; lia]).
    + destruct e.
      * rewrite !(parse_undecodable _ _ _ Hne Hdec).
        eexists; split; [reflexivity | cbn; lia].
      * rewrite !(parse_escapes _ _ _ _ Hne Hdec ltac:(discriminate)).
        exists []. split; [now rewrite <- Hw | auto].
      * rewrite !(parse_escapes _ _ _ _ Hne Hdec ltac:(discriminate)).
        exists []. split; [now rewrite <- Hw | auto].
Qed.

(** The exceptions the parser raises are those of [json.loads] that are
    not a [JSONDecodeError]. *)
Lemma parse_raises (json_loads : string -> outcome json) (text : string)
  (e : exn) :
  parser_outcome json_loads text = Raise e <->
  text <> "" /\ json_loads text = Raise e /\ e <> JSONDecodeError.
Proof.
  unfold parser_outcome. split.
  - destruct text as [|c r] eqn:E; [intro H; discriminate H|].
    rewrite <- E. assert (Hne : text <> "") by (subst; discriminate).
    destruct (json_loads text) as [data|e'] eqn:Hdec.
    + rewrite (parse_decoded _ _ _ _ Hne Hdec).
      destruct data as [| | | | |l|items]; try (intro H; discriminate H).
      destruct (first_list_value items); [intro H; discriminate H|].
      destruct (has_key "module" items && has_key "Description" items);
        intro H; discriminate H.
    + destruct e'.
      * rewrite (parse_undecodable _ _ _ Hne Hdec). intro H; discriminate H.
      * rewrite (parse_escapes _ _ _ _ Hne Hdec ltac:(discriminate)).
        cbn [fst]. intro H. injection H as <-.
        split; [exact Hne|]. split; [reflexivity | discriminate].
      * rewrite (parse_escapes _ _ _ _ Hne Hdec ltac:(discriminate)).
        cbn [fst]. intro H. injection H as <-.
        split; [exact Hne|]. split; [reflexivity | discriminate].
  - intros (Hne & Hdec & He). now rewrite (parse_escapes _ _ _ _ Hne Hdec He).
Qed.

(** C7, as the code has it. The parser catches [json.JSONDecodeError] and
    nothing else. On the empty text it returns the empty list and logs
    nothing; on a text on which [json.loads] raises [JSONDecodeError] it
    returns the empty list, and when the text is not empty it logs the
    error with the text; on a text that decodes it returns a list. So it
    never raises on these texts. The exceptions it raises are exactly
    those [json.loads] raises that are not a [JSONDecodeError]: they pass
    through the handler, and nothing is logged. *)
Theorem C7_parser_catches_JSONDecodeError
  (json_loads : string -> outcome json) (response_text : string)
  (w : World) :
  (response_text = "" ->
   _parse_llm_output json_loads response_text w = (Ret [], w)) /\
  (json_loads response_text = Raise JSONDecodeError ->
   fst (_parse_llm_output json_loads response_text w) = Ret [] /\
   (response_text <> "" ->
    snd (_parse_llm_output json_loads response_text w)
    = add_log w
        [(ERROR,
          ("Failed to decode JSON from LLM response: "
           ++ response_text)%string)])) /\
  (forall data,
      json_loads response_text = Ret data ->
      exists l w',
        _parse_llm_output json_loads response_text w = (Ret l, w')) /\
  (forall e,
      fst (_parse_llm_output json_loads response_text w) = Raise e <->
      response_text <> "" /\ json_loads response_text = Raise e /\
      e <> JSONDecodeError) /\
  (forall e,
      fst (_parse_llm_output json_loads response_text w) = Raise e ->
      snd (_parse_llm_output json_loads response_text w) = w).
Proof.
  destruct (parse_value json_loads response_text w) as (entries & Hrun & _).
  split; [|split; [|split; [|split]]].
  - intros ->. apply parse_empty.
  - intro Hdec. destruct response_text as [|c r] eqn:E.
    + split; [reflexivity | intro H; contradiction].
    + rewrite <- E in *.
      assert (Hne : response_text <> "") by (subst; discriminate).
      rewrite (parse_undecodable _ _ _ Hne Hdec).
      split; [reflexivity | intros _; reflexivity].
  - intros data Hdec. rewrite Hrun.
    destruct (parser_outcome json_loads response_text) as [l|e] eqn:Hout.
    + now exists l, (add_log w entries).
    + apply parse_raises in Hout. destruct Hout as (_ & Hraise & _).
      rewrite Hdec in Hraise. discriminate Hraise.
  - intro e. rewrite Hrun. cbn [fst]. apply parse_raises.
  - intros e Hraise. rewrite Hrun in Hraise. cbn [fst] in Hraise.
    apply parse_raises in Hraise. destruct Hraise as (Hne & Hdec & He).
    now rewrite (parse_escapes _ _ _ _ Hne Hdec He).
Qed.

Lemma C7_parser_catches_JSONDecodeError_witness :
  ref_loads "not json" = Raise JSONDecodeError /\
  fst (_parse_llm_output ref_loads "not json" w0) = Ret [] /\
  snd (_parse_llm_output ref_loads "not json" w0)
  = add_log w0
      [(ERROR, "Failed to decode JSON from LLM response: not json")].
Proof.
  split; [reflexivity|].
  destruct (C7_parser_catches_JSONDecodeError ref_loads "not json" w0)
    as (_ & H & _).
  destruct (H eq_refl) as [H1 H2].
  split; [exact H1 | apply H2; discriminate].
Defined.

(** The claim C7 as it was stated fails: on a document that is one integer
    of 4301 digits, [json.loads] raises the [ValueError] of the limit of
    integer conversion, which is not a [JSONDecodeError], and the parser
    does not return. *)
Lemma C7_long_integer_counterexample :
  ~ (exists l w',
        _parse_llm_output ref_loads long_integer w0 = (Ret l, w')).
Proof.
  assert (H : _parse_llm_output ref_loads long_integer w0
              = (Raise ValueError, w0)) by (vm_compute; reflexivity).
  intros (l & w' & Hret). rewrite H in Hret. discriminate Hret.
Qed.

(** C6, as the code has it. The parser takes a mapping for a single module
    when it has the keys [module] and [Description], spelled as the
    prompts spell them. The document with the key [Description] gives the
    one-element list with that object and the warning of the coercion; the
    document of the claim, with the key [description], has neither a list
    value nor the key [Description], and gives the empty list and the
    warning that no module list could be parsed. *)
Theorem C6_single_module_needs_Description
  (json_loads : string -> outcome json) (w : World) :
  json_loads doc_Description = Ret obj_Description ->
  json_loads doc_description = Ret obj_description ->
  _parse_llm_output json_loads doc_Description w
  = (Ret [obj_Description],
     add_log w
       [(WARNING,
         "LLM returned a single module object, wrapping it in a list.")]) /\
  _parse_llm_output json_loads doc_description w
  = (Ret [],
     add_log w
       [(WARNING,
         ("Could not parse a valid module list from LLM response: "
          ++ doc_description)%string)]).
Proof.
  intros HD Hd. split.
  - rewrite (parse_decoded json_loads doc_Description obj_Description w);
      [reflexivity | intro H; vm_compute in H; discriminate H | exact HD].
  - rewrite (parse_decoded json_loads doc_description obj_description w);
      [reflexivity | intro H; vm_compute in H; discriminate H | exact Hd].
Qed.

Lemma C6_single_module_needs_Description_witness :
  ref_loads doc_Description = Ret obj_Description /\
  ref_loads doc_description = Ret obj_description /\
  _parse_llm_output ref_loads doc_Description w0
  = (Ret [obj_Description],
     add_log w0
       [(WARNING,
         "LLM returned a single module object, wrapping it in a list.")]) /\
  _parse_llm_output ref_loads doc_description w0
  = (Ret [],
     add_log w0
       [(WARNING,
         ("Could not parse a valid module list from LLM response: "
          ++ doc_description)%string)]).
Proof.
  split; [reflexivity|]. split; [reflexivity|].
  apply (C6_single_module_needs_Description ref_loads w0); reflexivity.
Defined.

(** C6 as stated fails: on the document of the claim the parser does not
    return a one-element list. *)
Lemma C6_description_counterexample :
  ~ exists v : json,
      fst (_parse_llm_output ref_loads doc_description w0) = Ret [v].
Proof. intros [v H]. vm_compute in H. discriminate. Qed.

(** ** The orchestrator: claims C4, C5, C8 and C10 *)

Lemma lstrip_all_space (s : string) : all_space s = true -> lstrip s = "".
Proof.
  induction s as [|c r IH]; [reflexivity|]. cbn [lstrip all_space].
  intro H. apply andb_true_iff in H. destruct H as [-> Hr]. now apply IH.
Qed.

Lemma strip_all_space (s : string) : all_space s = true -> strip s = "".
Proof. intro H. unfold strip. now rewrite lstrip_all_space. Qed.

Lemma rstrip_empty (s : string) : rstrip s = "" -> all_space s = true.
Proof.
  induction s as [|c r IH]; [reflexivity|]. cbn [rstrip all_space].
  destruct (rstrip r) eqn:E; [|intro H; discriminate H].
  destruct (is_space c); [intros _; now apply IH | intro H; discriminate H].
Qed.

Lemma lstrip_keeps_space (s : string) :
  all_space (lstrip s) = true -> all_space s = true.
Proof.
  induction s as [|c r IH]; [reflexivity|]. cbn [lstrip all_space].
  destruct (is_space c) eqn:E; [exact IH|]. cbn [all_space]. now rewrite E.
Qed.

(** [strip] leaves nothing exactly of the texts of white space only. *)
Lemma strip_empty_iff (s : string) : strip s = "" <-> all_space s = true.
Proof.
  split; [|apply strip_all_space].
  intro H. apply lstrip_keeps_space, rstrip_empty, H.
Qed.

Section OrchestratorClaims.

Variable count : string -> N.
Variable json_loads : string -> outcome json.
Variable json_dumps : json -> string.
Variable client : list request -> request -> completion.
Variable model_name : string.

Local Abbreviation run_extract :=
  (extract count json_loads json_dumps client model_name).
Local Abbreviation run_all_raw :=
  (all_raw_modules_of count json_loads client model_name).
Local Abbreviation run_raw_loop := (raw_loop json_loads client model_name).
Local Abbreviation run_call_llm := (_call_llm client model_name).



(** [extract] on a blank text. *)
Lemma extract_blank (text : string) (w : World) :
  is_empty (strip text) = true ->
  run_extract text w
  = (Ret (JList []),
     add_log w
       [(WARNING, "Extractor received empty text. Nothing to process.")]).
Proof. intro H. unfold extract. now rewrite H. Qed.

(** C8. On a text that is empty or holds white space only, [extract]
    returns the empty list at once: it logs its warning and makes no call
    of the model. *)
Theorem C8_blank_text_no_call (text : string) (w : World) :
  all_space text = true ->
  run_extract text w
  = (Ret (JList []),
     add_log w
       [(WARNING, "Extractor received empty text. Nothing to process.")]).
Proof.
  intro H. apply extract_blank. now rewrite (strip_all_space _ H).
Qed.

(** Pass 1 when the model answers [[]] to every extraction request: every
    chunk is sent, nothing is collected, and only the progress lines are
    logged. *)
Lemma raw_loop_all_empty (n : nat) (chunks : list string) :
  (forall sent content,
      client sent (mk_request model_name _get_extraction_prompt content)
      = Completion "[]") ->
  json_loads "[]" = Ret (JList []) ->
  forall (i : nat) (acc : list json) (w : World),
    run_raw_loop n _get_extraction_prompt i chunks acc w
    = (Ret acc,
       mk_World
         (llm_calls w
          ++ map (mk_request model_name _get_extraction_prompt) chunks)
         (log w ++ pass1_progress n i (length chunks))).
Proof.
  intros Hclient Hloads.
  induction chunks as [|chunk rest IH]; intros i acc w.
  - unfold pass1_progress. simpl. rewrite !app_nil_r. now destruct w.
  - cbn [raw_loop].
    unfold bind at 1. unfold logger at 1.
    unfold bind at 1. unfold _call_llm at 1.
    cbn [llm_calls log]. rewrite Hclient. cbn [ret].
    unfold bind at 1.
    rewrite (parse_decoded json_loads "[]" (JList []));
      [| discriminate | exact Hloads].
    cbn [nonempty]. rewrite IH. cbn [llm_calls log].
    unfold pass1_progress. cbn [length seq map].
    rewrite <- !app_assoc. reflexivity.
Qed.

(** [extract] on a text that is not blank, when the model answers [[]]
    to every extraction request: the calls made and the lines logged. *)
Lemma extract_all_empty (text : string) (w : World) :
  is_empty (strip text) = false ->
  (forall sent content,
      client sent (mk_request model_name _get_extraction_prompt content)
      = Completion "[]") ->
  json_loads "[]" = Ret (JList []) ->
  json_dumps (JList []) = "[]" ->
  exists chunks,
    chunk_text count text MAX_INPUT_TOKENS = Ret chunks /\
    run_extract text w
    = (Ret (JList []),
       mk_World
         (llm_calls w
          ++ map (mk_request model_name _get_extraction_prompt) chunks)
         (log w
          ++ [(INFO, "Starting Pass 1: Raw module extraction.");
              (INFO, ("Content was split into "
                      ++ str_of_nat (length chunks) ++ " chunk(s).")%string)]
          ++ pass1_progress (length chunks) 0 (length chunks)
          ++ [(WARNING, "Pass 1 did not yield any modules.")])).
Proof.
  intros Htext Hclient Hloads Hdumps.
  destruct (chunk_text_returns count text MAX_INPUT_TOKENS ltac:(reflexivity))
    as [chunks Hchunks].
  exists chunks. split; [exact Hchunks|].
  unfold extract. rewrite Htext.
  unfold bind at 1. unfold logger at 1.
  unfold bind at 1. unfold _extract_raw_modules_from_chunks.
  unfold bind at 1. unfold all_raw_modules_of.
  unfold bind at 1.
  rewrite (chunk_text_logged count text MAX_INPUT_TOKENS chunks _ Hchunks).
  rewrite (raw_loop_all_empty _ _ Hclient Hloads).
  cbn [ret llm_calls log]. rewrite Hdumps.
  cbn [is_empty String.eqb Ascii.eqb Bool.eqb orb].
  unfold bind, logger, ret. cbn [llm_calls log].
  rewrite <- !app_assoc. reflexivity.
Qed.

Lemma prompts_differ : _get_extraction_prompt <> _get_synthesis_prompt.
Proof. intro H. vm_compute in H. discriminate H. Qed.

(** C5. When the model answers [[]] to every extraction request,
    [extract] returns the empty list, whatever the text, and Pass 2 does
    not start: every request sent carries the extraction prompt, none the
    synthesis prompt, and the line that opens Pass 2 is not logged. The
    two facts about [json] used are that [[]] decodes to the empty list
    and that the empty list is printed [[]]. *)
Theorem C5_empty_pass1_skips_pass2 (text : string) (w : World) :
  (forall sent content,
      client sent (mk_request model_name _get_extraction_prompt content)
      = Completion "[]") ->
  json_loads "[]" = Ret (JList []) ->
  json_dumps (JList []) = "[]" ->
  exists calls entries,
    run_extract text w
    = (Ret (JList []),
       mk_World (llm_calls w ++ calls) (log w ++ entries)) /\
    Forall (fun req => req_system req = _get_extraction_prompt
                       /\ req_system req <> _get_synthesis_prompt) calls /\
    ~ In pass2_line entries.
Proof.
  intros Hclient Hloads Hdumps.
  destruct (is_empty (strip text)) eqn:Htext.
  - exists [], [(WARNING,
                 "Extractor received empty text. Nothing to process.")].
    rewrite (extract_blank text w Htext), app_nil_r.
    split; [reflexivity|]. split; [constructor|].
    intros [H|[]]. discriminate H.
  - destruct (extract_all_empty text w Htext Hclient Hloads Hdumps)
      as (chunks & _ & ->).
    eexists _, _. split; [reflexivity|]. split.
    + apply Forall_forall. intros req Hin. apply in_map_iff in Hin.
      destruct Hin as (chunk & <- & _). cbn [req_system].
      split; [reflexivity | exact prompts_differ].
    + intro Hin. unfold pass2_line, pass1_progress in Hin.
      cbn [In app] in Hin.
      destruct Hin as [H|[H|Hin]]; [discriminate H | discriminate H |].
      apply in_app_or in Hin. destruct Hin as [Hin|[H|[]]].
      * apply in_map_iff in Hin. destruct Hin as (j & H & _).
        discriminate H.
      * discriminate H.
Qed.

(** [extract] after Pass 1, on a text that is not blank: the fallback of
    an empty result, or Pass 2 on the serialized list. *)
Lemma extract_after_pass1 (text : string) (w w1 : World) (raw : list json) :
  is_empty (strip text) = false ->
  run_all_raw text
    (add_log w [(INFO, "Starting Pass 1: Raw module extraction.")])
  = (Ret raw, w1) ->
  run_extract text w
  = if is_empty (json_dumps (JList raw))
       || String.eqb (json_dumps (JList raw)) "[]"
    then (Ret (JList []),
          add_log w1 [(WARNING, "Pass 1 did not yield any modules.")])
    else _synthesize_and_clean_modules count json_loads client model_name
           (json_dumps (JList raw))
           (add_log w1
              [(INFO, "Starting Pass 2: Synthesizing and cleaning modules.")]).
Proof.
  intros Htext Hpass1. unfold extract. rewrite Htext.
  unfold bind at 1. unfold logger at 1.
  unfold bind at 1. unfold _extract_raw_modules_from_chunks.
  unfold bind at 1. unfold add_log in Hpass1. rewrite Hpass1. cbn [ret].
  destruct (is_empty (json_dumps (JList raw))
            || String.eqb (json_dumps (JList raw)) "[]").
  - reflexivity.
  - unfold bind at 1. unfold logger at 1. unfold bind at 1. unfold add_log.
    destruct (_synthesize_and_clean_modules _ _ _ _ _ _) as [[v|e] w'];
      reflexivity.
Qed.

(** C4. On a text that is not blank, let Pass 1 end with the list [raw],
    and let the serialized list count more tokens than the budget. Then
    [extract] returns [raw] and makes no call after those of Pass 1. The
    facts about [json] used are that the serialized list decodes to the
    list it was printed from, that [[]] decodes to the empty list and that
    [json.loads] raises [JSONDecodeError] on the empty text. *)
Theorem C4_oversize_returns_raw_list (text : string) (w w1 : World)
  (raw : list json) :
  is_empty (strip text) = false ->
  run_all_raw text
    (add_log w [(INFO, "Starting Pass 1: Raw module extraction.")])
  = (Ret raw, w1) ->
  (MAX_INPUT_TOKENS < Z.of_N (count (json_dumps (JList raw))))%Z ->
  json_loads (json_dumps (JList raw)) = Ret (JList raw) ->
  json_loads "[]" = Ret (JList []) ->
  json_loads "" = Raise JSONDecodeError ->
  fst (run_extract text w) = Ret (JList raw) /\
  llm_calls (snd (run_extract text w)) = llm_calls w1.
Proof.
  intros Htext Hpass1 Hbig Hround Hnil Hempty.
  rewrite (extract_after_pass1 text w w1 raw Htext Hpass1).
  destruct (json_dumps (JList raw)) as [|c r] eqn:Hdumps.
  - congruence.
  - cbn [is_empty orb]. rewrite <- Hdumps in *.
    destruct (String.eqb_spec (json_dumps (JList raw)) "[]") as [E|_].
    + rewrite E, Hnil in Hround. injection Hround as <-.
      split; reflexivity.
    + unfold _synthesize_and_clean_modules, _get_token_count.
      destruct (Z.ltb_spec MAX_INPUT_TOKENS
                  (Z.of_N (count (json_dumps (JList raw))))) as [_|E]; [|lia].
      unfold bind, logger, loads. rewrite Hround. split; reflexivity.
Qed.


End OrchestratorClaims.

(** *** The orchestrator on concrete runs *)

(** The two passes on the scenario of two overlapping modules: one chunk,
    one extraction request, one synthesis request, and the merged record
    returned. *)
Example extract_billing :
  fst (extract ref_count ref_loads ref_dumps client_billing "gpt-4o"
         text_billing w0)
  = Ret (JList [module_obj "Billing" "Manage and configure billing."]) /\
  map req_system
    (llm_calls (snd (extract ref_count ref_loads ref_dumps client_billing
                       "gpt-4o" text_billing w0)))
  = [_get_extraction_prompt; _get_synthesis_prompt].
Proof. split; reflexivity. Qed.

Lemma C8_blank_text_no_call_witness :
  all_space ("  " ++ NL) = true /\
  extract ref_count ref_loads ref_dumps client_one_module "gpt-4o"
    ("  " ++ NL) w0
  = (Ret (JList []),
     add_log w0
       [(WARNING, "Extractor received empty text. Nothing to process.")]).
Proof.
  split; [reflexivity|].
  apply (C8_blank_text_no_call ref_count ref_loads ref_dumps
           client_one_module "gpt-4o" ("  " ++ NL) w0).
  reflexivity.
Defined.

Lemma C5_empty_pass1_skips_pass2_witness :
  ref_loads "[]" = Ret (JList []) /\
  ref_dumps (JList []) = "[]" /\
  exists calls entries,
    extract ref_count ref_loads ref_dumps client_no_module "gpt-4o"
      text_ab w0
    = (Ret (JList []),
       mk_World (llm_calls w0 ++ calls) (log w0 ++ entries)) /\
    Forall (fun req => req_system req = _get_extraction_prompt
                       /\ req_system req <> _get_synthesis_prompt) calls /\
    ~ In pass2_line entries.
Proof.
  split; [reflexivity|]. split; [reflexivity|].
  apply (C5_empty_pass1_skips_pass2 ref_count ref_loads ref_dumps
           client_no_module "gpt-4o" text_ab w0);
    [intros sent content; reflexivity | reflexivity | reflexivity].
Defined.

Lemma C4_oversize_returns_raw_list_witness :
  is_empty (strip "x") = false /\
  (MAX_INPUT_TOKENS
   < Z.of_N (coarse_count (ref_dumps (JList [obj_Description]))))%Z /\
  ref_loads (ref_dumps (JList [obj_Description]))
  = Ret (JList [obj_Description]) /\
  fst (extract coarse_count ref_loads ref_dumps client_one_module "gpt-4o"
         "x" w0)
  = Ret (JList [obj_Description]) /\
  llm_calls (snd (extract coarse_count ref_loads ref_dumps client_one_module
                    "gpt-4o" "x" w0))
  = llm_calls w1_x.
Proof.
  split; [reflexivity|]. split; [reflexivity|]. split; [reflexivity|].
  apply (C4_oversize_returns_raw_list coarse_count ref_loads ref_dumps
           client_one_module "gpt-4o" "x" w0 w1_x [obj_Description]);
    reflexivity.
Defined.


(** * Further properties of the code *)

(** ** Strings *)

Lemma string_app_assoc (a b c : string) :
  ((a ++ b) ++ c)%string = (a ++ b ++ c)%string.
Proof. induction a as [|x a IH]; simpl; [reflexivity | now rewrite IH]. Qed.

Lemma string_app_nil_r (a : string) : (a ++ "")%string = a.
Proof. induction a as [|x a IH]; simpl; [reflexivity | now rewrite IH]. Qed.

Lemma string_length_app (a b : string) :
  String.length (a ++ b) = String.length a + String.length b.
Proof. induction a as [|x a IH]; simpl; [reflexivity | now rewrite IH]. Qed.

Lemma length_substring (s : string) :
  forall i n,
    String.length (substring i n s) = Nat.min n (String.length s - i).
Proof.
  induction s as [|c r IH]; intros i n.
  - destruct i, n; reflexivity.
  - destruct i as [|i].
    + destruct n as [|n]; [reflexivity|]. simpl. rewrite IH.
      now rewrite Nat.sub_0_r.
    + simpl. apply IH.
Qed.

Lemma range0_bound (stop step i : nat) :
  0 < step -> In i (range0 stop step) -> i < stop.
Proof.
  intros Hs Hin. unfold range0 in Hin. apply in_map_iff in Hin.
  destruct Hin as (k & <- & Hk). apply in_seq in Hk.
  pose proof (Nat.div_mod (stop + step - 1) step ltac:(lia)) as Hd.
  pose proof (Nat.mod_upper_bound (stop + step - 1) step ltac:(lia)).
  nia.
Qed.

(** Joining two non-empty runs of blocks. *)
Lemma join_app (xs ys : list string) :
  xs <> [] -> ys <> [] ->
  join_nlnl (xs ++ ys) = (join_nlnl xs ++ NLNL ++ join_nlnl ys)%string.
Proof.
  induction xs as [|x xs IH]; intros Hx Hy; [contradiction|].
  destruct xs as [|x' xs'].
  - destruct ys as [|y ys]; [contradiction | reflexivity].
  - change (join_nlnl ((x :: x' :: xs') ++ ys))
      with (x ++ NLNL ++ join_nlnl ((x' :: xs') ++ ys))%string.
    rewrite IH by (assumption || discriminate).
    change (join_nlnl (x :: x' :: xs'))
      with (x ++ NLNL ++ join_nlnl (x' :: xs'))%string.
    now rewrite !string_app_assoc.
Qed.

Lemma join_flat_split (cs : list string) :
  join_nlnl (flat_map split_nlnl cs) = join_nlnl cs.
Proof.
  induction cs as [|c rest IH]; [reflexivity|].
  cbn [flat_map]. destruct rest as [|c' rest'].
  - cbn [flat_map]. rewrite app_nil_r. apply join_split.
  - rewrite join_app.
    + rewrite join_split, IH. reflexivity.
    + apply split_nlnl_not_nil.
    + cbn [flat_map]. intro H. apply app_eq_nil in H.
      now apply (split_nlnl_not_nil c').
Qed.

(** ** The chunker: what every emitted chunk satisfies *)

Section ChunkerEmitted.

Variable count : string -> N.
Variable max_tokens : Z.
Hypothesis max_tokens_pos : (0 < max_tokens)%Z.

(** A property of chunks that holds of the slices of the blocks over the
    budget and of the joins the running count allows. *)
Variable P : string -> Prop.
Hypothesis P_slices :
  forall block,
    (max_tokens < Z.of_N (count block))%Z ->
    Forall P (slices_of block (Z.to_nat (max_tokens * 3))).
Hypothesis P_joined :
  forall bs,
    bs <> [] ->
    Forall (fun b => (Z.of_N (count b) <= max_tokens)%Z) bs ->
    within_running_budget count max_tokens bs ->
    P (join_nlnl bs).

(** What the loop keeps true of the accumulated blocks. *)
Definition accumulated_ok (st : chunker_state) : Prop :=
  Forall (fun b => (Z.of_N (count b) <= max_tokens)%Z)
         (current_chunk_blocks st) /\
  within_running_budget count max_tokens (current_chunk_blocks st) /\
  (current_chunk_blocks st <> [] ->
   (count (join_nlnl (current_chunk_blocks st))
    <= current_chunk_tokens st)%N).

Lemma within_running_budget_one (b : string) :
  within_running_budget count max_tokens [b].
Proof.
  intros init last E Hne. destruct init as [|x init]; [contradiction|].
  destruct init; discriminate.
Qed.

Lemma within_running_budget_nil :
  within_running_budget count max_tokens [].
Proof. intros init last E. now destruct init. Qed.

Lemma force_split_slices (block : string) :
  force_split block (max_tokens * 3)
  = Ret (slices_of block (Z.to_nat (max_tokens * 3))).
Proof.
  unfold force_split.
  destruct (Z.eqb_spec (max_tokens * 3) 0) as [E|_]; [lia|].
  destruct (Z.ltb_spec (max_tokens * 3) 0) as [E|_]; [lia | reflexivity].
Qed.

Lemma chunk_loop_emitted (rest : list string) :
  forall st,
    Forall P (chunks st) -> accumulated_ok st ->
    exists st',
      chunk_loop count max_tokens rest st = Ret st' /\
      Forall P (chunks st') /\ accumulated_ok st'.
Proof.
  induction rest as [|block rest IH]; intros st HP Hacc.
  - now exists st.
  - destruct Hacc as (Hsmall & Hrun & Htok).
    assert (Hflush : current_chunk_blocks st <> [] ->
                     P (join_nlnl (current_chunk_blocks st))).
    { intro Hne. now apply P_joined. }
    simpl chunk_loop. unfold chunk_step.
    destruct (Z.ltb_spec max_tokens (Z.of_N (count block))) as [Hbig|Hfit].
    + rewrite force_split_slices. cbn [obind]. apply IH.
      * destruct (nonempty (current_chunk_blocks st)) eqn:Hne;
          cbn [chunks].
        -- apply nonempty_true in Hne. rewrite !Forall_app.
           repeat split; auto.
        -- apply Forall_app. split; auto.
      * unfold accumulated_ok.
        destruct (nonempty (current_chunk_blocks st)) eqn:Hne;
          cbn [current_chunk_blocks current_chunk_tokens].
        -- repeat split; [constructor | apply within_running_budget_nil
                          | intro H; contradiction].
        -- apply nonempty_false in Hne. rewrite Hne.
           repeat split; [constructor | apply within_running_budget_nil
                          | intro H; contradiction].
    + cbn [obind].
      destruct ((max_tokens <?
                 Z.of_N (current_chunk_tokens st + count block))%Z
                && nonempty (current_chunk_blocks st)) eqn:Hcut.
      * apply andb_true_iff in Hcut. destruct Hcut as [_ Hne].
        apply nonempty_true in Hne.
        apply IH; unfold accumulated_ok;
          cbn [chunks app current_chunk_blocks current_chunk_tokens].
        -- apply Forall_app. split; auto.
        -- repeat split;
             [constructor; [exact Hfit | constructor]
             | apply within_running_budget_one | intros _; lia].
      * apply IH; [exact HP|]. unfold accumulated_ok.
        cbn [current_chunk_blocks current_chunk_tokens].
        apply andb_false_iff in Hcut. repeat split.
        -- apply Forall_app. split; [exact Hsmall|].
           constructor; [exact Hfit | constructor].
        -- intros init last E Hne. apply app_inj_tail in E.
           destruct E as [<- <-]. specialize (Htok Hne).
           destruct Hcut as [Hcut|Hcut].
           ++ apply Z.ltb_ge in Hcut. lia.
           ++ apply nonempty_false in Hcut. contradiction.
        -- intros _. lia.
Qed.

(** For a positive budget the chunker returns chunks that all satisfy
    [P]. *)
Lemma chunk_text_emitted (text : string) :
  exists chunks,
    chunk_text count text max_tokens = Ret chunks /\ Forall P chunks.
Proof.
  destruct (chunk_loop_emitted (split_nlnl text) (mk_chunker_state [] [] 0))
    as (st & Hloop & HP & Hsmall & Hrun & Htok).
  { constructor. }
  { repeat split; [constructor | apply within_running_budget_nil
                   | intro H; contradiction]. }
  exists (finish st). unfold chunk_text. rewrite Hloop. split; [reflexivity|].
  unfold finish. destruct (nonempty (current_chunk_blocks st)) eqn:Hne;
    [|exact HP].
  apply nonempty_true in Hne. apply Forall_app. split; [exact HP|].
  constructor; [now apply P_joined | constructor].
Qed.

End ChunkerEmitted.

(** A chunk that joins blocks the running count allowed counts at most the
    budget plus one separator, for a tokenizer that counts at most
    [sep_tokens] tokens more in two texts joined by a blank line than in
    the two texts. *)
Lemma joined_chunk_bound (count : string -> N) (sep_tokens : N)
  (max_tokens : Z) (bs : list string) :
  (forall x y, (count (two_blocks x y) <= count x + sep_tokens + count y)%N) ->
  bs <> [] ->
  Forall (fun b => (Z.of_N (count b) <= max_tokens)%Z) bs ->
  within_running_budget count max_tokens bs ->
  (Z.of_N (count (join_nlnl bs)) <= max_tokens + Z.of_N sep_tokens)%Z.
Proof.
  intros Hsub Hne Hsmall Hrun.
  destruct (exists_last Hne) as (init & last & ->).
  destruct init as [|x init].
  - apply Forall_inv in Hsmall. cbn [app]. change (join_nlnl [last]) with last.
    lia.
  - specialize (Hrun (x :: init) last eq_refl ltac:(discriminate)).
    rewrite join_app by discriminate.
    change (join_nlnl [last]) with last.
    specialize (Hsub (join_nlnl (x :: init)) last).
    unfold two_blocks in Hsub. lia.
Qed.

(** X1. For a positive budget and a tokenizer that counts at most
    [sep_tokens] tokens more in [x + '\n\n' + y] than in [x] and [y]
    together, every chunk the chunker returns counts at most
    [max_tokens + sep_tokens] tokens or, when it is a slice of a
    force-split block, has at most [3 * max_tokens] characters. *)
Theorem chunks_within_budget_plus_separator (count : string -> N)
  (sep_tokens : N) (text : string) (max_tokens : Z) (w : World) :
  (0 < max_tokens)%Z ->
  (forall x y, (count (two_blocks x y) <= count x + sep_tokens + count y)%N) ->
  exists chunks,
    fst (_chunk_text_by_tokens count text max_tokens w) = Ret chunks /\
    Forall (fun c =>
              (Z.of_N (count c) <= max_tokens + Z.of_N sep_tokens)%Z \/
              String.length c <= Z.to_nat (max_tokens * 3))
           chunks.
Proof.
  intros Hpos Hsub.
  destruct (chunk_text_emitted count max_tokens Hpos
              (fun c =>
                 (Z.of_N (count c) <= max_tokens + Z.of_N sep_tokens)%Z \/
                 String.length c <= Z.to_nat (max_tokens * 3)))
    with (text := text) as (chunks & Hret & HP).
  - intros block _. apply Forall_forall. intros c Hin. right.
    unfold slices_of in Hin. apply in_map_iff in Hin.
    destruct Hin as (i & <- & _). unfold slice. rewrite length_substring.
    apply Nat.le_min_l.
  - intros bs Hne Hsmall Hrun. left.
    now apply (joined_chunk_bound count sep_tokens max_tokens bs).
  - exists chunks. split; [|exact HP].
    now rewrite (chunk_text_logged count text max_tokens chunks w Hret).
Qed.

Lemma char_count_separator (x y : string) :
  (char_count (two_blocks x y) <= char_count x + 2 + char_count y)%N.
Proof.
  unfold char_count, two_blocks. rewrite !string_length_app.
  change (String.length NLNL) with 2. lia.
Qed.

Lemma chunks_within_budget_plus_separator_witness :
  (0 < 3)%Z /\
  exists chunks,
    fst (_chunk_text_by_tokens char_count text_long_short 3 w0)
    = Ret chunks /\
    Forall (fun c =>
              (Z.of_N (char_count c) <= 3 + Z.of_N 2)%Z \/
              String.length c <= Z.to_nat (3 * 3))
           chunks.
Proof.
  split; [lia|].
  apply (chunks_within_budget_plus_separator char_count 2 text_long_short
           3 w0); [lia | exact char_count_separator].
Defined.

(** X2. A text with no blank line that counts at most the budget comes
    back as one chunk, the text itself. *)
Theorem single_block_within_budget (count : string -> N) (text : string)
  (max_tokens : Z) (w : World) :
  split_nlnl text = [text] ->
  (Z.of_N (count text) <= max_tokens)%Z ->
  fst (_chunk_text_by_tokens count text max_tokens w) = Ret [text].
Proof.
  intros Hone Hfit.
  rewrite (chunk_text_logged count text max_tokens [text]); [reflexivity|].
  unfold chunk_text. rewrite Hone.
  erewrite chunk_loop_cons;
    [| apply chunk_step_append; [exact Hfit | now left]].
  reflexivity.
Qed.

Lemma single_block_within_budget_witness :
  split_nlnl "one paragraph" = ["one paragraph"] /\
  (Z.of_N (char_count "one paragraph") <= 13)%Z /\
  fst (_chunk_text_by_tokens char_count "one paragraph" 13 w0)
  = Ret ["one paragraph"].
Proof.
  split; [reflexivity|]. split; [vm_compute; discriminate|].
  apply (single_block_within_budget char_count "one paragraph" 13 w0);
    [reflexivity | vm_compute; discriminate].
Defined.

(** X3. For a positive budget, a text with no blank line that counts more
    than the budget comes back as its slices of [3 * max_tokens]
    characters: put together they are the text, none is empty, none is
    longer than [3 * max_tokens] characters, and there are as many as the
    length of the text divided by [3 * max_tokens], rounded up. *)
Theorem oversize_block_is_sliced (count : string -> N) (text : string)
  (max_tokens : Z) (w : World) :
  (0 < max_tokens)%Z ->
  split_nlnl text = [text] ->
  (max_tokens < Z.of_N (count text))%Z ->
  fst (_chunk_text_by_tokens count text max_tokens w)
  = Ret (slices_of text (Z.to_nat (max_tokens * 3))) /\
  String.concat "" (slices_of text (Z.to_nat (max_tokens * 3))) = text /\
  Forall (fun c => 0 < String.length c <= Z.to_nat (max_tokens * 3))
         (slices_of text (Z.to_nat (max_tokens * 3))) /\
  length (slices_of text (Z.to_nat (max_tokens * 3)))
  = (String.length text + Z.to_nat (max_tokens * 3) - 1)
    / Z.to_nat (max_tokens * 3).
Proof.
  intros Hpos Hone Hbig. split; [|split; [|split]].
  - rewrite (chunk_text_logged count text max_tokens
               (slices_of text (Z.to_nat (max_tokens * 3))));
      [reflexivity|].
    unfold chunk_text. rewrite Hone. simpl chunk_loop. unfold chunk_step.
    destruct (Z.ltb_spec max_tokens (Z.of_N (count text))) as [_|E]; [|lia].
    rewrite (force_split_slices max_tokens Hpos). reflexivity.
  - apply range0_slices. lia.
  - apply Forall_forall. intros c H.
    apply in_map_iff in H. destruct H as (i & <- & Hi).
    apply range0_bound in Hi; [|lia].
    unfold slice. rewrite length_substring. lia.
  - unfold slices_of, range0. now rewrite !length_map, length_seq.
Qed.

Lemma oversize_block_is_sliced_witness :
  (0 < 1)%Z /\
  split_nlnl "abcdefgh" = ["abcdefgh"] /\
  (1 < Z.of_N (char_count "abcdefgh"))%Z /\
  fst (_chunk_text_by_tokens char_count "abcdefgh" 1 w0)
  = Ret ["abc"; "def"; "gh"].
Proof.
  split; [lia|]. split; [reflexivity|]. split; [reflexivity|].
  apply (oversize_block_is_sliced char_count "abcdefgh" 1 w0);
    [lia | reflexivity | reflexivity].
Defined.

(** The chunks of a text, read as pieces (for a positive budget). *)
Lemma chunk_text_pieces (count : string -> N) (text : string)
  (max_tokens : Z) :
  (0 < max_tokens)%Z ->
  exists chunks pieces,
    chunk_text count text max_tokens = Ret chunks /\
    chunks = flat_map emitted pieces /\
    flat_map blocks_of pieces = split_nlnl text /\
    Forall (piece_ok count max_tokens) pieces.
Proof.
  intro Hpos.
  destruct (chunk_loop_pieces count max_tokens Hpos (split_nlnl text)
              (mk_chunker_state [] [] 0))
    as (st & pieces & Hloop & Hch & Hbl & Hok & Hs & Hc).
  { apply canonical_split. }
  { constructor. }
  cbn [chunks current_chunk_blocks app] in Hch, Hbl.
  unfold chunk_text. rewrite Hloop. cbn [obind]. unfold finish.
  destruct (nonempty (current_chunk_blocks st)) eqn:Hne.
  - apply nonempty_true in Hne.
    destruct (flushed_piece count max_tokens _ Hne Hc Hs) as [Hb Hk].
    exists (chunks st ++ [join_nlnl (current_chunk_blocks st)]),
           (pieces ++ [Joined (join_nlnl (current_chunk_blocks st))]).
    rewrite !flat_map_app. cbn [flat_map]. rewrite Hb, !app_nil_r.
    repeat split; [now rewrite Hch | now rewrite Hbl |].
    apply Forall_app. split; [exact Hok | constructor; [exact Hk | constructor]].
  - apply nonempty_false in Hne. rewrite Hne, app_nil_r in Hbl.
    exists (chunks st), pieces.
    repeat split; [exact Hch | now rewrite Hbl | exact Hok].
Qed.

(** Pieces that are all joined chunks. *)
Lemma pieces_all_joined (count : string -> N) (max_tokens : Z)
  (pieces : list piece) :
  Forall (piece_ok count max_tokens) pieces ->
  Forall (fun b => (Z.of_N (count b) <= max_tokens)%Z)
         (flat_map blocks_of pieces) ->
  flat_map blocks_of pieces = flat_map split_nlnl (flat_map emitted pieces).
Proof.
  induction pieces as [|p pieces IH]; intros Hok Hsmall; [reflexivity|].
  cbn [flat_map] in *. apply Forall_app in Hsmall.
  destruct Hsmall as [Hp Hrest]. inversion Hok as [|? ? Hpk Hoks]; subst.
  rewrite flat_map_app, <- IH by assumption. f_equal.
  destruct p as [chunk|slices].
  - cbn [emitted blocks_of flat_map]. now rewrite app_nil_r.
  - cbn [blocks_of] in Hp. apply Forall_inv in Hp. cbn [piece_ok] in Hpk. lia.
Qed.

(** X4. For a positive budget, when no block of the text counts more than
    the budget, the chunks joined by blank lines are the text: the chunker
    only cuts at blank lines and loses nothing. *)
Theorem chunks_join_to_text (count : string -> N) (text : string)
  (max_tokens : Z) (w : World) :
  (0 < max_tokens)%Z ->
  Forall (fun b => (Z.of_N (count b) <= max_tokens)%Z) (split_nlnl text) ->
  exists chunks,
    fst (_chunk_text_by_tokens count text max_tokens w) = Ret chunks /\
    join_nlnl chunks = text.
Proof.
  intros Hpos Hsmall.
  destruct (chunk_text_pieces count text max_tokens Hpos)
    as (chunks & pieces & Hret & Hch & Hbl & Hok).
  exists chunks. split.
  - now rewrite (chunk_text_logged count text max_tokens chunks w Hret).
  - rewrite <- Hbl in Hsmall.
    rewrite (pieces_all_joined count max_tokens pieces Hok Hsmall) in Hbl.
    rewrite <- Hch in Hbl.
    rewrite <- (join_flat_split chunks), Hbl. apply join_split.
Qed.

Lemma chunks_join_to_text_witness :
  (0 < 7)%Z /\
  Forall (fun b => (Z.of_N (ref_count b) <= 7)%Z) (split_nlnl text_abcd) /\
  exists chunks,
    fst (_chunk_text_by_tokens ref_count text_abcd 7 w0) = Ret chunks /\
    join_nlnl chunks = text_abcd.
Proof.
  split; [lia|].
  assert (H : Forall (fun b => (Z.of_N (ref_count b) <= 7)%Z)
                     (split_nlnl text_abcd)).
  { repeat constructor; vm_compute; discriminate. }
  split; [exact H|].
  apply (chunks_join_to_text ref_count text_abcd 7 w0); [lia | exact H].
Defined.

(** With budget 0 the loop raises as soon as a block counts a token. *)
Lemma chunk_loop_zero_budget (count : string -> N) (blocks : list string) :
  Exists (fun b => (0 < count b)%N) blocks ->
  forall st, chunk_loop count 0 blocks st = Raise ValueError.
Proof.
  induction blocks as [|block rest IH]; intros Hex st.
  - inversion Hex.
  - simpl chunk_loop. unfold chunk_step.
    destruct (Z.ltb_spec 0 (Z.of_N (count block))) as [Hbig|Hzero].
    + reflexivity.
    + cbn [obind]. apply IH. inversion Hex as [? ? Hb|? ? Hr]; subst;
        [lia | exact Hr].
Qed.

(** X5. With budget 0 the chunker raises [ValueError] on every text that
    has a block counting at least one token: the step of the [range] of
    the force-split is 0. Nothing is logged. *)
Theorem zero_budget_raises (count : string -> N) (text : string)
  (w : World) :
  Exists (fun b => (0 < count b)%N) (split_nlnl text) ->
  _chunk_text_by_tokens count text 0 w = (Raise ValueError, w).
Proof.
  intro Hex. unfold _chunk_text_by_tokens, bind, lift, chunk_text.
  now rewrite (chunk_loop_zero_budget count (split_nlnl text) Hex).
Qed.

Lemma zero_budget_raises_witness :
  Exists (fun b => (0 < ref_count b)%N) (split_nlnl text_ab) /\
  _chunk_text_by_tokens ref_count text_ab 0 w0 = (Raise ValueError, w0).
Proof.
  assert (H : Exists (fun b => (0 < ref_count b)%N) (split_nlnl text_ab)).
  { apply Exists_cons_hd. reflexivity. }
  split; [exact H|].
  apply (zero_budget_raises ref_count text_ab w0 H).
Defined.

(** With a negative budget every block is over the budget and has no
    slice. *)
Lemma chunk_loop_negative_budget (count : string -> N) (max_tokens : Z)
  (blocks : list string) :
  (max_tokens < 0)%Z ->
  forall toks,
    chunk_loop count max_tokens blocks (mk_chunker_state [] [] toks)
    = Ret (mk_chunker_state [] [] toks).
Proof.
  intro Hneg. induction blocks as [|block rest IH]; intro toks;
    [reflexivity|].
  simpl chunk_loop. unfold chunk_step, force_split.
  destruct (Z.ltb_spec max_tokens (Z.of_N (count block))) as [_|E]; [|lia].
  destruct (Z.eqb_spec (max_tokens * 3) 0) as [E|_]; [lia|].
  destruct (Z.ltb_spec (max_tokens * 3) 0) as [_|E]; [|lia].
  cbn [nonempty obind chunks current_chunk_blocks current_chunk_tokens app].
  apply IH.
Qed.

(** X6. With a negative budget the chunker returns no chunk at all,
    whatever the text: every block goes to the force-split, whose [range]
    with a negative step is empty, so the whole text is dropped without an
    error. *)
Theorem negative_budget_drops_text (count : string -> N) (text : string)
  (max_tokens : Z) (w : World) :
  (max_tokens < 0)%Z ->
  _chunk_text_by_tokens count text max_tokens w
  = (Ret [], add_log w [(INFO, "Content was split into 0 chunk(s).")]).
Proof.
  intro Hneg.
  rewrite (chunk_text_logged count text max_tokens []); [reflexivity|].
  unfold chunk_text.
  now rewrite (chunk_loop_negative_budget count max_tokens _ Hneg).
Qed.

Lemma negative_budget_drops_text_witness :
  (-1 < 0)%Z /\
  _chunk_text_by_tokens ref_count text_abcd (-1) w0
  = (Ret [], add_log w0 [(INFO, "Content was split into 0 chunk(s).")]).
Proof.
  split; [lia|].
  apply (negative_budget_drops_text ref_count text_abcd (-1) w0). lia.
Defined.

(** White space in joined blocks. *)
Lemma all_space_app (a b : string) :
  all_space (a ++ b) = all_space a && all_space b.
Proof.
  induction a as [|c a IH]; [reflexivity|].
  cbn [append all_space]. now rewrite IH, andb_assoc.
Qed.

Lemma all_space_join (bs : list string) :
  all_space (join_nlnl bs) = forallb all_space bs.
Proof.
  induction bs as [|b rest IH]; [reflexivity|].
  destruct rest as [|b' rest'].
  - cbn [forallb]. change (join_nlnl [b]) with b. now rewrite andb_true_r.
  - change (join_nlnl (b :: b' :: rest'))
      with (b ++ NLNL ++ join_nlnl (b' :: rest'))%string.
    rewrite !all_space_app, IH. reflexivity.
Qed.

(** A text that is not blank has a block that is not empty. *)
Lemma nonblank_has_block (text : string) :
  is_empty (strip text) = false ->
  exists b, In b (split_nlnl text) /\ b <> "".
Proof.
  intro Htext.
  assert (Hns : all_space text = false).
  { destruct (all_space text) eqn:E; [|reflexivity].
    now rewrite (strip_all_space _ E) in Htext. }
  rewrite <- (join_split text), all_space_join in Hns.
  apply Bool.not_true_iff_false in Hns.
  destruct (Exists_dec (fun b => b <> "") (split_nlnl text)) as [Hex|Hno].
  { intro b. destruct (string_dec b "") as [->|Hb];
      [right; intro H; now apply H | now left]. }
  - apply Exists_exists in Hex. exact Hex.
  - exfalso. apply Hns. apply forallb_forall. intros b Hin.
    destruct (string_dec b "") as [->|Hb]; [reflexivity|].
    exfalso. apply Hno. apply Exists_exists. now exists b.
Qed.

(** For a positive budget a text that is not blank gives a chunk. *)
Lemma nonblank_has_chunk (count : string -> N) (text : string)
  (max_tokens : Z) :
  (0 < max_tokens)%Z ->
  is_empty (strip text) = false ->
  exists chunks,
    chunk_text count text max_tokens = Ret chunks /\ chunks <> [].
Proof.
  intros Hpos Htext.
  destruct (chunk_text_pieces count text max_tokens Hpos)
    as (chunks & pieces & Hret & Hch & Hbl & _).
  exists chunks. split; [exact Hret|].
  destruct (nonblank_has_block text Htext) as (b & Hin & Hb).
  rewrite <- Hbl in Hin. apply in_flat_map in Hin.
  destruct Hin as (p & Hp & Hbp).
  assert (Hem : exists c, In c (emitted p)).
  { destruct p as [chunk|slices].
    - exists chunk. now left.
    - destruct Hbp as [<-|[]]. destruct slices as [|c slices];
        [now contradiction Hb | exists c; now left]. }
  destruct Hem as (c & Hc). intro Hnil.
  assert (Hin : In c chunks).
  { rewrite Hch. apply in_flat_map. now exists p. }
  now rewrite Hnil in Hin.
Qed.

(** X7. For a positive budget the chunker returns at least one chunk for
    every text that is not blank. *)
Theorem nonblank_text_has_a_chunk (count : string -> N) (text : string)
  (max_tokens : Z) (w : World) :
  (0 < max_tokens)%Z ->
  is_empty (strip text) = false ->
  exists chunks,
    fst (_chunk_text_by_tokens count text max_tokens w) = Ret chunks /\
    chunks <> [].
Proof.
  intros Hpos Htext.
  destruct (nonblank_has_chunk count text max_tokens Hpos Htext)
    as (chunks & Hret & Hne).
  exists chunks. split; [|exact Hne].
  now rewrite (chunk_text_logged count text max_tokens chunks w Hret).
Qed.

Lemma nonblank_text_has_a_chunk_witness :
  (0 < 3)%Z /\ is_empty (strip text_long_short) = false /\
  exists chunks,
    fst (_chunk_text_by_tokens char_count text_long_short 3 w0)
    = Ret chunks /\
    chunks <> [].
Proof.
  split; [lia|]. split; [reflexivity|].
  apply (nonblank_text_has_a_chunk char_count text_long_short 3 w0);
    [lia | reflexivity].
Defined.

(** ** The gateway and the parser *)

Section GatewayAndParser.

Variable json_loads : string -> outcome json.
Variable client : list request -> request -> completion.
Variable model_name : string.

Local Abbreviation run_call_llm := (_call_llm client model_name).
Local Abbreviation run_parse := (_parse_llm_output json_loads).

(** The value and the trace of a call of the gateway. *)
Lemma call_llm_value (content prompt : string) (w : World) :
  exists entries,
    run_call_llm content prompt w
    = (Ret (gateway_text
              (client (llm_calls w) (mk_request model_name prompt content))),
       mk_World (llm_calls w ++ [mk_request model_name prompt content])
                (log w ++ entries)).
Proof.
  unfold _call_llm.
  destruct (client (llm_calls w) _) as [text|code body|e].
  - exists []. now rewrite app_nil_r.
  - eexists. reflexivity.
  - eexists. reflexivity.
Qed.

(** X8. A call of the gateway never raises and sends exactly one request,
    with the model, the system prompt and the content it was given: there
    is no retry. When the call completes, the gateway returns the content
    of the completion and logs nothing; when the call raises, with an
    [APIStatusError] or with any other exception, the gateway returns the
    empty string and logs one error, which tells the status code and the
    text of the response, or the exception. *)
Theorem gateway_one_request_no_raise (content prompt : string)
  (w : World) :
  exists text entries,
    run_call_llm content prompt w
    = (Ret text,
       mk_World (llm_calls w ++ [mk_request model_name prompt content])
                (log w ++ entries)) /\
    (forall answer,
        client (llm_calls w) (mk_request model_name prompt content)
        = Completion answer ->
        text = answer /\ entries = []) /\
    (forall status_code response_text,
        client (llm_calls w) (mk_request model_name prompt content)
        = APIStatusError status_code response_text ->
        text = "" /\
        entries = [(ERROR,
                    ("OpenAI API status error: " ++ str_of_nat status_code
                     ++ " - " ++ response_text)%string)]) /\
    (forall e,
        client (llm_calls w) (mk_request model_name prompt content)
        = OtherException e ->
        text = "" /\
        entries = [(ERROR,
                    ("An unexpected error occurred during LLM call: "
                     ++ e)%string)]).
Proof.
  unfold _call_llm.
  destruct (client (llm_calls w) _) as [answer|code body|e].
  - exists answer, []. rewrite app_nil_r. split; [reflexivity|].
    split; [|split]; [|intros ? ? H; discriminate H | intros ? H; discriminate H].
    intros ? H. injection H as <-. now split.
  - eexists "", _. split; [reflexivity|].
    split; [|split]; [intros ? H; discriminate H | | intros ? H; discriminate H].
    intros ? ? H. injection H as <- <-. now split.
  - eexists "", _. split; [reflexivity|].
    split; [|split]; [intros ? H; discriminate H | intros ? ? H; discriminate H |].
    intros ? H. injection H as <-. now split.
Qed.

(** The first list value of a mapping, located. *)
Lemma first_list_value_located (before after : list (string * json))
  (key : string) (l : list json) :
  first_list_value before = None ->
  first_list_value (before ++ (key, JList l) :: after) = Some l.
Proof.
  induction before as [|[k v] before IH]; intro H; [reflexivity|].
  cbn [app first_list_value] in *.
  destruct v; try (now apply IH). discriminate.
Qed.

(** X9. When the response decodes to a mapping, the parser returns the
    value of the first item, in the order of the document, whose value is
    a list, and logs nothing. This comes before the test of the keys
    [module] and [Description]: a single module whose submodules are a
    list yields that list, not the module. *)
Theorem parser_first_list_value_wins (text : string)
  (before after : list (string * json)) (key : string) (l : list json)
  (w : World) :
  text <> "" ->
  json_loads text = Ret (JDict (before ++ (key, JList l) :: after)) ->
  first_list_value before = None ->
  run_parse text w = (Ret l, w).
Proof.
  intros Hne Hdec Hfirst.
  rewrite (parse_decoded _ _ _ _ Hne Hdec).
  now rewrite (first_list_value_located before after key l Hfirst).
Qed.

(** A list found by [first_list_value] is the value of an item. *)
Lemma first_list_value_in (items : list (string * json)) (value : list json) :
  first_list_value items = Some value ->
  exists key, In (key, JList value) items.
Proof.
  induction items as [|[k v] items IH]; [intro H; discriminate H|].
  cbn [first_list_value].
  assert (Hrec : first_list_value items = Some value ->
                 exists key, In (key, JList value) ((k, v) :: items)).
  { intro H. destruct (IH H) as (key & Hk). exists key. now right. }
  destruct v; try exact Hrec.
  intro H. injection H as ->. exists k. now left.
Qed.

(** X10. The parser makes no call and logs at most one record, and it
    ends the same way in every world. When it returns, the list is empty,
    or the list the response decodes to, or a list that is the value of an
    item of the mapping the response decodes to, or that mapping alone
    when it has the keys [module] and [Description] and no list value.
    When it raises, the response is not empty, the exception is the one
    [json.loads] raised on it and is not a [JSONDecodeError], and nothing
    is logged. *)
Theorem parser_result_comes_from_response (text : string) (w : World) :
  exists entries,
    run_parse text w = (parser_outcome json_loads text, add_log w entries) /\
    length entries <= 1 /\
    match parser_outcome json_loads text with
    | Ret l =>
        l = [] \/
        json_loads text = Ret (JList l) \/
        (exists items key,
            json_loads text = Ret (JDict items) /\ In (key, JList l) items) \/
        (exists items,
            json_loads text = Ret (JDict items) /\ l = [JDict items] /\
            has_key "module" items = true /\
            has_key "Description" items = true /\
            first_list_value items = None)
    | Raise e =>
        text <> "" /\ json_loads text = Raise e /\ e <> JSONDecodeError /\
        entries = []
    end.
Proof.
  destruct (parse_value json_loads text w) as (entries & Hrun & Hlen).
  exists entries. split; [exact Hrun|]. split; [exact Hlen|].
  destruct (parser_outcome json_loads text) as [l|e] eqn:Hout.
  - unfold parser_outcome in Hout.
    destruct text as [|c r] eqn:E; [injection Hout as <-; now left|].
    rewrite <- E in *. assert (Hne : text <> "") by (subst; discriminate).
    destruct (json_loads text) as [data|e] eqn:Hdec.
    + rewrite (parse_decoded _ _ _ _ Hne Hdec) in Hout.
      destruct data as [| | | | |l'|items];
        try (injection Hout as <-; now left).
      * injection Hout as <-. right. now left.
      * destruct (first_list_value items) as [value|] eqn:Hfirst.
        -- injection Hout as <-. right. right. left.
           destruct (first_list_value_in items value Hfirst) as (key & Hin).
           now exists items, key.
        -- destruct (has_key "module" items) eqn:Hm;
             destruct (has_key "Description" items) eqn:Hd;
             cbn [andb fst] in Hout; injection Hout as <-;
             try (now left).
           right. right. right. now exists items.
    + destruct e.
      * rewrite (parse_undecodable _ _ _ Hne Hdec) in Hout.
        injection Hout as <-. now left.
      * rewrite (parse_escapes _ _ _ _ Hne Hdec ltac:(discriminate)) in Hout.
        discriminate Hout.
      * rewrite (parse_escapes _ _ _ _ Hne Hdec ltac:(discriminate)) in Hout.
        discriminate Hout.
  - apply parse_raises in Hout. destruct Hout as (Hne & Hdec & He).
    split; [exact Hne|]. split; [exact Hdec|]. split; [exact He|].
    rewrite (parse_escapes _ _ _ _ Hne Hdec He) in Hrun.
    injection Hrun as Hw. unfold add_log in Hw.
    destruct w as [calls entries0]. cbn [llm_calls log] in Hw.
    injection Hw as Hw. rewrite <- (app_nil_r entries0) in Hw at 1.
    apply app_inv_head in Hw. now symmetry.
Qed.

End GatewayAndParser.

Lemma parser_first_list_value_wins_witness :
  doc_list_submodules <> "" /\
  ref_loads doc_list_submodules
  = Ret (JDict ([("module", JStr "A"); ("Description", JStr "d")]
                ++ ("Submodules", JList [JStr "x"]) :: [])) /\
  first_list_value [("module", JStr "A"); ("Description", JStr "d")] = None /\
  _parse_llm_output ref_loads doc_list_submodules w0 = (Ret [JStr "x"], w0).
Proof.
  assert (Hne : doc_list_submodules <> "").
  { intro H. vm_compute in H. discriminate H. }
  split; [exact Hne|]. split; [reflexivity|]. split; [reflexivity|].
  apply (parser_first_list_value_wins ref_loads doc_list_submodules
           [("module", JStr "A"); ("Description", JStr "d")] []
           "Submodules" [JStr "x"] w0 Hne); reflexivity.
Defined.

(** ** The orchestrator: requests, aggregation and exceptions *)

Section OrchestratorTrace.

Variable count : string -> N.
Variable json_loads : string -> outcome json.
Variable json_dumps : json -> string.
Variable client : list request -> request -> completion.
Variable model_name : string.

Local Abbreviation run_extract :=
  (extract count json_loads json_dumps client model_name).
Local Abbreviation run_all_raw :=
  (all_raw_modules_of count json_loads client model_name).
Local Abbreviation run_raw_loop := (raw_loop json_loads client model_name).
Local Abbreviation run_synthesize :=
  (_synthesize_and_clean_modules count json_loads client model_name).
Local Abbreviation answers_after sent chunks :=
  (pass1_answers client model_name sent chunks).

(** The loop of Pass 1: how it ends and what it sends. *)
Lemma raw_loop_collects (n : nat) (chunks : list string) :
  forall (i : nat) (acc : list json) (w : World),
  exists w1,
    run_raw_loop n _get_extraction_prompt i chunks acc w
    = (obind (pass1_modules json_loads (answers_after (llm_calls w) chunks))
             (fun parsed => Ret (acc ++ parsed)),
       w1) /\
    llm_calls w1
    = llm_calls w
      ++ map (extraction_request model_name)
           (firstn (asked json_loads (answers_after (llm_calls w) chunks))
                   chunks).
Proof.
  induction chunks as [|chunk rest IH]; intros i acc w.
  - exists w. cbn. now rewrite !app_nil_r.
  - cbn [raw_loop]. unfold bind at 1. unfold logger at 1.
    unfold bind at 1.
    destruct (call_llm_value client model_name chunk _get_extraction_prompt
                (mk_World (llm_calls w)
                   (log w ++ [(INFO,
                               ("Processing chunk " ++ str_of_nat (i + 1)
                                ++ "/" ++ str_of_nat n
                                ++ " in Pass 1.")%string)])))
      as (entries & ->).
    cbn [llm_calls log]. unfold bind at 1.
    match goal with
    | |- context [_parse_llm_output json_loads ?t ?w2] =>
        destruct (parse_value json_loads t w2) as (entries' & -> & _)
    end.
    cbn [pass1_answers pass1_modules asked]. unfold parser_returns.
    fold (extraction_request model_name chunk).
    destruct (parser_outcome json_loads
                (gateway_text
                   (client (llm_calls w)
                      (extraction_request model_name chunk))))
      as [parsed|e].
    + match goal with
      | |- context [raw_loop _ _ _ _ _ _ _ ?acc' ?w3] =>
          destruct (IH (S i) acc' w3) as (w1 & -> & Hcalls)
      end.
      exists w1. unfold add_log in *. cbn [llm_calls] in *. split.
      * f_equal. cbn [obind].
        destruct (pass1_modules json_loads _) as [others|e];
          [|reflexivity].
        cbn [obind]. destruct parsed; cbn [nonempty app].
        -- reflexivity.
        -- now rewrite <- app_assoc.
      * rewrite Hcalls. cbn [firstn map]. now rewrite <- app_assoc.
    + eexists. split; [reflexivity|]. reflexivity.
Qed.

(** Pass 1 as a whole. *)
Lemma pass1_collects (text : string) (w : World) :
  exists chunks w1,
    chunk_text count text MAX_INPUT_TOKENS = Ret chunks /\
    run_all_raw text w
    = (pass1_modules json_loads (answers_after (llm_calls w) chunks), w1) /\
    llm_calls w1
    = llm_calls w
      ++ map (extraction_request model_name)
           (firstn (asked json_loads (answers_after (llm_calls w) chunks))
                   chunks).
Proof.
  destruct (chunk_text_returns count text MAX_INPUT_TOKENS ltac:(reflexivity))
    as [chunks Hchunks].
  unfold all_raw_modules_of. unfold bind at 1.
  rewrite (chunk_text_logged count text MAX_INPUT_TOKENS chunks _ Hchunks).
  match goal with
  | |- context [raw_loop _ _ _ ?n _ ?i _ ?acc ?w2] =>
      destruct (raw_loop_collects n chunks i acc w2) as (w1 & Hrun & Hcalls)
  end.
  exists chunks, w1. split; [exact Hchunks|]. split; [|exact Hcalls].
  rewrite Hrun. cbn [llm_calls]. f_equal.
  destruct (pass1_modules json_loads _); reflexivity.
Qed.

(** When the parser returns on every answer, every chunk was asked for. *)
Lemma asked_all (answers : list string) :
  forallb (parser_returns json_loads) answers = true ->
  asked json_loads answers = length answers.
Proof.
  induction answers as [|a rest IH]; [reflexivity|].
  cbn [forallb asked length]. intro H. apply andb_true_iff in H.
  destruct H as [-> Hrest]. now rewrite IH.
Qed.

Lemma length_pass1_answers (chunks : list string) :
  forall sent, length (answers_after sent chunks) = length chunks.
Proof.
  induction chunks as [|c rest IH]; intro sent; [reflexivity|].
  cbn [pass1_answers length]. now rewrite IH.
Qed.

(** Pass 1 ends with a list exactly when the parser returns on every
    answer. *)
Lemma pass1_modules_returns (answers : list string) (raw : list json) :
  pass1_modules json_loads answers = Ret raw ->
  forallb (parser_returns json_loads) answers = true.
Proof.
  revert raw. induction answers as [|a rest IH]; intros raw; [reflexivity|].
  cbn [pass1_modules forallb]. unfold parser_returns.
  destruct (parser_outcome json_loads a) as [parsed|e];
    [|intro H; discriminate H].
  cbn [obind andb].
  destruct (pass1_modules json_loads rest) as [others|e];
    [|intro H; discriminate H].
  intros _. now apply (IH others).
Qed.


(** X11. Pass 1 sends one request a chunk, in the order of the chunks,
    each with the extraction prompt and the chunk as content, until the
    parser raises on an answer. It ends with the lists parsed from the
    answers put end to end in that order, so a failed call or an answer
    that is not a JSON document adds nothing and stops nothing; or it ends with
    the exception the parser raised, and the chunks after that answer are
    not sent. When the parser returns on every answer, every chunk is
    sent. *)
Theorem pass1_one_request_per_chunk (text : string) (w : World) :
  exists chunks w1,
    chunk_text count text MAX_INPUT_TOKENS = Ret chunks /\
    run_all_raw text w
    = (pass1_modules json_loads (answers_after (llm_calls w) chunks), w1) /\
    llm_calls w1
    = llm_calls w
      ++ map (extraction_request model_name)
           (firstn (asked json_loads (answers_after (llm_calls w) chunks))
                   chunks) /\
    (forallb (parser_returns json_loads) (answers_after (llm_calls w) chunks)
     = true ->
     llm_calls w1
     = llm_calls w ++ map (extraction_request model_name) chunks).
Proof.
  destruct (pass1_collects text w) as (chunks & w1 & Hchunks & Hrun & Hcalls).
  exists chunks, w1. split; [exact Hchunks|]. split; [exact Hrun|].
  split; [exact Hcalls|].
  intro Hall. rewrite Hcalls, (asked_all _ Hall), length_pass1_answers.
  now rewrite firstn_all.
Qed.

(** Pass 2 on a serialized list within the budget. *)
Lemma synthesize_within_budget (raw_json : string) (w : World) :
  (Z.of_N (count raw_json) <= MAX_INPUT_TOKENS)%Z ->
  exists w2,
    run_synthesize raw_json w
    = (obind (parser_outcome json_loads
                (gateway_text
                   (client (llm_calls w)
                      (mk_request model_name _get_synthesis_prompt
                         raw_json))))
             (fun final_modules => Ret (JList final_modules)),
       w2) /\
    llm_calls w2
    = llm_calls w ++ [mk_request model_name _get_synthesis_prompt raw_json].
Proof.
  intro Hfit. unfold _synthesize_and_clean_modules, _get_token_count.
  destruct (Z.ltb_spec MAX_INPUT_TOKENS (Z.of_N (count raw_json)))
    as [E|_]; [lia|].
  unfold bind at 1.
  destruct (call_llm_value client model_name raw_json _get_synthesis_prompt w)
    as (entries & ->).
  unfold bind at 1.
  match goal with
  | |- context [_parse_llm_output json_loads ?t ?w2] =>
      destruct (parse_value json_loads t w2) as (entries' & -> & _)
  end.
  destruct (parser_outcome json_loads _);
    eexists; (split; [reflexivity | reflexivity]).
Qed.

(** Pass 2 on a serialized list over the budget. *)
Lemma synthesize_over_budget (raw_json : string) (w : World) :
  (MAX_INPUT_TOKENS < Z.of_N (count raw_json))%Z ->
  exists w2,
    run_synthesize raw_json w = (json_loads raw_json, w2) /\
    llm_calls w2 = llm_calls w.
Proof.
  intro Hbig. unfold _synthesize_and_clean_modules, _get_token_count.
  destruct (Z.ltb_spec MAX_INPUT_TOKENS (Z.of_N (count raw_json)))
    as [_|E]; [|lia].
  unfold bind, logger, loads, lift.
  eexists; split; reflexivity.
Qed.

(** [extract] on a text that is not blank: Pass 1 sends the chunks, of
    which there is one at least, and the way it ends decides what
    follows. *)
Lemma extract_nonblank (text : string) (w : World) :
  is_empty (strip text) = false ->
  exists chunks w1,
    chunk_text count text MAX_INPUT_TOKENS = Ret chunks /\
    chunks <> [] /\
    llm_calls w1
    = llm_calls w
      ++ map (extraction_request model_name)
           (firstn (asked json_loads (answers_after (llm_calls w) chunks))
                   chunks) /\
    run_extract text w
    = match pass1_modules json_loads (answers_after (llm_calls w) chunks) with
      | Raise e => (Raise e, w1)
      | Ret raw =>
          if is_empty (json_dumps (JList raw))
             || String.eqb (json_dumps (JList raw)) "[]"
          then (Ret (JList []),
                add_log w1 [(WARNING, "Pass 1 did not yield any modules.")])
          else run_synthesize (json_dumps (JList raw))
                 (add_log w1
                    [(INFO,
                      "Starting Pass 2: Synthesizing and cleaning modules.")])
      end.
Proof.
  intro Htext.
  destruct (pass1_collects text
              (add_log w [(INFO, "Starting Pass 1: Raw module extraction.")]))
    as (chunks & w1 & Hchunks & Hrun & Hcalls).
  destruct (nonblank_has_chunk count text MAX_INPUT_TOKENS
              ltac:(reflexivity) Htext) as (chunks' & Hchunks' & Hne).
  rewrite Hchunks in Hchunks'. injection Hchunks' as <-.
  exists chunks, w1. split; [exact Hchunks|]. split; [exact Hne|].
  split; [exact Hcalls|].
  unfold add_log in Hrun, Hcalls. cbn [llm_calls] in Hrun, Hcalls.
  destruct (pass1_modules json_loads (answers_after (llm_calls w) chunks))
    as [raw|e].
  - exact (extract_after_pass1 count json_loads json_dumps client model_name
             text w w1 raw Htext Hrun).
  - unfold extract. rewrite Htext.
    unfold bind at 1. unfold logger at 1.
    unfold bind at 1. unfold _extract_raw_modules_from_chunks.
    unfold bind at 1. now rewrite Hrun.
Qed.


(** X13. The two passes composed: on a text that is not blank, when Pass 1
    ends with a list whose serialization is neither empty nor [[]] and
    counts no more tokens than the budget, [extract] ends as the parser
    ends on the answer to the synthesis request, sent after the extraction
    requests: it returns the list the parser returns, or raises the
    exception the parser raises. The records of Pass 1 reach the result
    through that answer only. *)
Theorem extract_returns_parsed_synthesis (text : string)
  (chunks : list string) (raw : list json) (w : World) :
  is_empty (strip text) = false ->
  chunk_text count text MAX_INPUT_TOKENS = Ret chunks ->
  pass1_modules json_loads (answers_after (llm_calls w) chunks) = Ret raw ->
  json_dumps (JList raw) <> "" ->
  json_dumps (JList raw) <> "[]" ->
  (Z.of_N (count (json_dumps (JList raw))) <= MAX_INPUT_TOKENS)%Z ->
  fst (run_extract text w)
  = obind (parser_outcome json_loads
             (gateway_text
                (client
                   (llm_calls w
                    ++ map (extraction_request model_name) chunks)
                   (synthesis_request json_dumps model_name raw))))
          (fun final_modules => Ret (JList final_modules)).
Proof.
  intros Htext Hchunks Hraw Hne Hnil Hfit.
  destruct (extract_nonblank text w Htext)
    as (chunks' & w1 & Hchunks' & _ & Hcalls & ->).
  rewrite Hchunks in Hchunks'. injection Hchunks' as <-.
  rewrite (asked_all _ (pass1_modules_returns _ _ Hraw)),
    length_pass1_answers, firstn_all in Hcalls.
  rewrite Hraw.
  destruct (json_dumps (JList raw)) as [|c r] eqn:Hd;
    [now contradiction Hne|].
  rewrite <- Hd in *. cbn [is_empty orb]. rewrite Hd at 1.
  cbn [is_empty orb].
  destruct (String.eqb_spec (json_dumps (JList raw)) "[]") as [E|_];
    [now contradiction Hnil|].
  destruct (synthesize_within_budget _
              (add_log w1
                 [(INFO,
                   "Starting Pass 2: Synthesizing and cleaning modules.")])
              Hfit) as (w2 & -> & _).
  cbn [fst add_log llm_calls]. now rewrite Hcalls.
Qed.


(** Pass 1 when the parser returns the empty list on every answer. *)
Lemma pass1_modules_nil (chunks : list string) :
  (forall sent chunk,
      parser_outcome json_loads
        (gateway_text (client sent (extraction_request model_name chunk)))
      = Ret []) ->
  forall sent,
    pass1_modules json_loads (answers_after sent chunks) = Ret [].
Proof.
  intro Hnone. induction chunks as [|chunk rest IH]; intro sent;
    [reflexivity|].
  cbn [pass1_answers pass1_modules]. now rewrite Hnone, IH.
Qed.

(** X15. Pass 1 absorbs the failures the gateway and the parser catch:
    when the parser returns the empty list on every answer to an
    extraction request, because the call failed, the answer does not
    decode or holds no list, [extract] returns the empty list and does not
    raise. Every chunk was sent all the same, and no synthesis request
    follows. The fact about [json] used is that the empty list is printed
    [[]]. *)
Theorem extract_absorbs_failed_pass1 (text : string) (w : World) :
  (forall sent chunk,
      parser_outcome json_loads
        (gateway_text (client sent (extraction_request model_name chunk)))
      = Ret []) ->
  json_dumps (JList []) = "[]" ->
  fst (run_extract text w) = Ret (JList []) /\
  exists chunks,
    (is_empty (strip text) = false ->
     chunk_text count text MAX_INPUT_TOKENS = Ret chunks) /\
    llm_calls (snd (run_extract text w))
    = llm_calls w ++ map (extraction_request model_name) chunks.
Proof.
  intros Hnone Hdumps.
  destruct (is_empty (strip text)) eqn:Htext.
  { rewrite (extract_blank count json_loads json_dumps client model_name
               text w Htext).
    split; [reflexivity|]. exists []. split; [intro H; discriminate H|].
    cbn. now rewrite app_nil_r. }
  destruct (extract_nonblank text w Htext)
    as (chunks & w1 & Hchunks & _ & Hcalls & ->).
  pose proof (pass1_modules_nil chunks Hnone (llm_calls w)) as Hraw.
  rewrite (asked_all _ (pass1_modules_returns _ _ Hraw)),
    length_pass1_answers, firstn_all in Hcalls.
  rewrite Hraw, Hdumps.
  cbn [is_empty String.eqb Ascii.eqb Bool.eqb orb]. cbn [fst snd].
  split; [reflexivity|]. exists chunks. split; [intros _; exact Hchunks|].
  cbn [add_log llm_calls]. exact Hcalls.
Qed.

(** Blocks that are not blank join to a text that is not blank. *)
Lemma join_nonblank (blocks : list string) :
  blocks <> [] ->
  Forall (fun s => is_empty (strip s) = false) blocks ->
  is_empty (strip (join_nlnl blocks)) = false.
Proof.
  intros Hne Hall.
  destruct (strip (join_nlnl blocks)) as [|c r] eqn:E; [|reflexivity].
  apply strip_empty_iff in E. rewrite all_space_join in E.
  destruct blocks as [|b rest]; [now contradiction Hne|].
  cbn [forallb] in E. apply andb_true_iff in E. destruct E as [Eb _].
  apply Forall_inv in Hall. now rewrite (strip_all_space _ Eb) in Hall.
Qed.

(** The blocks the preprocessor returns are not blank. *)
Lemma nonblank_blocks_spec (structured_content : list string) :
  Forall (fun s => is_empty (strip s) = false)
    (nonblank_blocks structured_content).
Proof.
  apply Forall_forall. intros s Hin. unfold nonblank_blocks in Hin.
  apply filter_In in Hin. destruct Hin as [_ H].
  now apply negb_true_iff in H.
Qed.

(** X16. The caller and the extractor composed: the text [main.py] makes
    of the blocks the preprocessor returned for the pages of a site is
    never blank, so [extract] does not take its early return on it and
    sends one extraction request at least. *)
Theorem consolidated_text_is_sent (pages : list (list string))
  (text : string) (w : World) :
  consolidated_text (map nonblank_blocks pages) = Some text ->
  is_empty (strip text) = false /\
  exists chunk rest,
    llm_calls (snd (run_extract text w))
    = llm_calls w ++ extraction_request model_name chunk :: rest.
Proof.
  unfold consolidated_text.
  destruct (concat (map nonblank_blocks pages)) as [|b bs] eqn:E;
    [intro H; discriminate H|].
  cbn [nonempty]. intro H. injection H as <-.
  assert (Htext : is_empty (strip (join_nlnl (b :: bs))) = false).
  { apply join_nonblank; [discriminate|]. rewrite <- E.
    apply Forall_concat. apply Forall_forall. intros l Hin.
    apply in_map_iff in Hin. destruct Hin as (p & <- & _).
    apply nonblank_blocks_spec. }
  split; [exact Htext|].
  destruct (extract_nonblank (join_nlnl (b :: bs)) w Htext)
    as (chunks & w1 & _ & Hne & Hcalls & Hrun).
  destruct chunks as [|chunk rest]; [now contradiction Hne|].
  exists chunk.
  assert (Hfirst : exists sent_rest,
             llm_calls w1
             = llm_calls w ++ extraction_request model_name chunk
                              :: sent_rest).
  { rewrite Hcalls. cbn [pass1_answers asked].
    destruct (parser_returns json_loads _); cbn [firstn map];
      eexists; reflexivity. }
  destruct Hfirst as (sent_rest & Hfirst).
  assert (Hgrow : exists more,
             llm_calls (snd (run_extract (join_nlnl (b :: bs)) w))
             = llm_calls w1 ++ more).
  { rewrite Hrun.
    destruct (pass1_modules json_loads _) as [raw|e];
      [|exists []; cbn [snd]; now rewrite app_nil_r].
    destruct (is_empty _ || String.eqb _ "[]").
    - exists []. cbn. now rewrite app_nil_r.
    - destruct (Z.ltb_spec MAX_INPUT_TOKENS
                  (Z.of_N (count (json_dumps (JList raw)))))
        as [Hbig|Hfit].
      + destruct (synthesize_over_budget _
                    (add_log w1
                       [(INFO,
                         "Starting Pass 2: Synthesizing and cleaning modules.")])
                    Hbig) as (w2 & -> & Hw2).
        exists []. cbn [snd]. rewrite Hw2. cbn. now rewrite app_nil_r.
      + destruct (synthesize_within_budget _
                    (add_log w1
                       [(INFO,
                         "Starting Pass 2: Synthesizing and cleaning modules.")])
                    Hfit) as (w2 & -> & Hw2).
        eexists. cbn [snd]. rewrite Hw2. reflexivity. }
  destruct Hgrow as (more & ->). rewrite Hfirst.
  exists (sent_rest ++ more). now rewrite <- app_assoc.
Qed.

End OrchestratorTrace.

(** Pass 1 stopped by an answer the parser raises on: the text makes two
    chunks, the answer to the first is an integer of 4301 digits, and
    [extract] raises the [ValueError] of [json.loads] after that one
    request. *)
Example extract_stops_at_long_integer :
  chunk_text coarse_count text_abc MAX_INPUT_TOKENS
  = Ret [two_blocks "a" "b"; "c"] /\
  extract coarse_count ref_loads ref_dumps client_long_integer "gpt-4o"
    text_abc w0
  = (Raise ValueError,
     mk_World
       [extraction_request "gpt-4o" (two_blocks "a" "b")]
       [(INFO, "Starting Pass 1: Raw module extraction.");
        (INFO, "Content was split into 2 chunk(s).");
        (INFO, "Processing chunk 1/2 in Pass 1.")]).
Proof. split; vm_compute; reflexivity. Qed.


Lemma extract_returns_parsed_synthesis_witness :
  is_empty (strip text_billing) = false /\
  chunk_text ref_count text_billing MAX_INPUT_TOKENS = Ret [text_billing] /\
  pass1_modules ref_loads
    (pass1_answers client_billing "gpt-4o" (llm_calls w0) [text_billing])
  = Ret [module_obj "Billing" "Manage billing.";
         module_obj "Billing Settings" "Configure billing options."] /\
  (Z.of_N
     (ref_count
        (ref_dumps
           (JList [module_obj "Billing" "Manage billing.";
                   module_obj "Billing Settings"
                     "Configure billing options."])))
   <= MAX_INPUT_TOKENS)%Z /\
  fst (extract ref_count ref_loads ref_dumps client_billing "gpt-4o"
         text_billing w0)
  = obind
      (parser_outcome ref_loads
         (gateway_text
            (client_billing
               (llm_calls w0
                ++ map (extraction_request "gpt-4o") [text_billing])
               (synthesis_request ref_dumps "gpt-4o"
                  [module_obj "Billing" "Manage billing.";
                   module_obj "Billing Settings"
                     "Configure billing options."]))))
      (fun final_modules => Ret (JList final_modules)).
Proof.
  split; [reflexivity|]. split; [reflexivity|]. split; [reflexivity|].
  split; [vm_compute; discriminate|].
  apply (extract_returns_parsed_synthesis ref_count ref_loads ref_dumps
           client_billing "gpt-4o" text_billing [text_billing]
           [module_obj "Billing" "Manage billing.";
            module_obj "Billing Settings" "Configure billing options."] w0);
    [reflexivity | reflexivity | reflexivity
     | intro H; vm_compute in H; discriminate H
     | intro H; vm_compute in H; discriminate H
     | vm_compute; discriminate].
Defined.


Lemma extract_absorbs_failed_pass1_witness :
  ref_dumps (JList []) = "[]" /\
  fst (extract ref_count ref_loads ref_dumps client_always_failing "gpt-4o"
         text_ab w0)
  = Ret (JList []) /\
  exists chunks,
    (is_empty (strip text_ab) = false ->
     chunk_text ref_count text_ab MAX_INPUT_TOKENS = Ret chunks) /\
    llm_calls (snd (extract ref_count ref_loads ref_dumps
                      client_always_failing "gpt-4o" text_ab w0))
    = llm_calls w0 ++ map (extraction_request "gpt-4o") chunks.
Proof.
  split; [reflexivity|].
  apply (extract_absorbs_failed_pass1 ref_count ref_loads ref_dumps
           client_always_failing "gpt-4o" text_ab w0);
    [intros sent chunk; reflexivity | reflexivity].
Defined.

Lemma consolidated_text_is_sent_witness :
  consolidated_text
    (map nonblank_blocks
       [["## Billing"; "  "]; []; [NL; "Manage billing."]])
  = Some (two_blocks "## Billing" "Manage billing.") /\
  is_empty (strip (two_blocks "## Billing" "Manage billing.")) = false /\
  exists chunk rest,
    llm_calls (snd (extract ref_count ref_loads ref_dumps client_billing
                      "gpt-4o" (two_blocks "## Billing" "Manage billing.")
                      w0))
    = llm_calls w0 ++ extraction_request "gpt-4o" chunk :: rest.
Proof.
  split; [reflexivity|].
  apply (consolidated_text_is_sent ref_count ref_loads ref_dumps
           client_billing "gpt-4o"
           [["## Billing"; "  "]; []; [NL; "Manage billing."]]
           (two_blocks "## Billing" "Manage billing.") w0).
  reflexivity.
Defined.
